(** * bpl: bounded power-law distributed random variables

    A shallow embedding of [bpl.py] ([sample], [pdf], [cdf], [histogram],
    [_logbins]) and the properties of its behaviour.

    Reading of the program.
    - The module is Python 2 code for the NumPy of 2016: [histogram]
      rebinds its local [density] with a bare [exec], and hands the float
      [nbins] to [numpy.logspace] as [num].  Both are modelled as they
      behave there: the [exec] assignment takes effect, [num] is truncated
      by [int].
    - Floating-point numbers are read as exact real numbers ([R]).  Where
      NumPy would return [inf] or [nan] and go on without raising
      (logarithm of a non-positive number, array division by zero, array
      power outside the reals), the embedding ends in the outcome
      [NonFinite].  A Python scalar operation at the same place raises, and
      the embedding raises as well.
    - An array is a [list R]; the optional bound [xmax] and the optional
      [bins] are [option]s; the uniform source [numpy.random.rand] is an
      explicit function from the requested size to the draws.
    - Over the reals [10 ** log10 x] is [x], so the first and the last
      default edge are the least non-zero and the greatest element; in
      double precision either can be one unit in the last place away, and
      an element equal to an extreme can then fall outside the edges.  What
      is stated about the number of elements counted therefore uses of the
      edges only that they are positive and increase. *)

From Stdlib Require Import Reals Lra Lia ZArith Bool Arith String List Permutation.
Import ListNotations.
Open Scope string_scope.
Open Scope list_scope.
Open Scope R_scope.

(** ** Outcomes of a call *)

Inductive exn : Type :=
| AssertionError (msg : string)
| ZeroDivisionError
| ValueError (msg : string)
| OverflowError.

Inductive outcome (A : Type) : Type :=
| Ok (a : A)
| Raise (e : exn)
| NonFinite.

Arguments Ok {A} a.
Arguments Raise {A} e.
Arguments NonFinite {A}.

Definition bind {A B : Type} (m : outcome A) (f : A -> outcome B) : outcome B :=
  match m with
  | Ok a => f a
  | Raise e => Raise e
  | NonFinite => NonFinite
  end.

Notation "x <- m ;; k" := (bind m (fun x => k))
  (at level 61, m at next level, right associativity).

Fixpoint mapM {A B : Type} (f : A -> outcome B) (l : list A) : outcome (list B) :=
  match l with
  | [] => Ok []
  | a :: l' => b <- f a ;; bs <- mapM f l' ;; Ok (b :: bs)
  end.

(** [assert cond, msg] *)
Definition py_assert (cond : bool) (msg : string) : outcome unit :=
  if cond then Ok tt else Raise (AssertionError msg).

(** ** Numbers *)

Definition Rgtb (x y : R) : bool := if Rlt_dec y x then true else false.
Definition Rltb' (x y : R) : bool := if Rlt_dec x y then true else false.
Definition Rleb' (x y : R) : bool := if Rle_dec x y then true else false.
Definition Reqb' (x y : R) : bool := if Req_dec_T x y then true else false.

(** A float whose value is a whole number. *)
Definition is_integer (y : R) : bool := Reqb' (IZR (Int_part y)) y.

(** The value of [x ** y] where it is a real number, and the way it leaves
    the reals otherwise: [0 ** y] with [y < 0], or a negative base with a
    fractional exponent. *)
Inductive pow_fault : Type := ZeroToNegative | NegativeToFraction.

Definition float_pow (x y : R) : pow_fault + R :=
  if Reqb' y 0 then inr 1
  else if Rltb' 0 x then inr (Rpower x y)
  else if Reqb' x 0 then
    (if Rltb' y 0 then inl ZeroToNegative else inr 0)
  else if is_integer y then inr (powerRZ x (Int_part y))
  else inl NegativeToFraction.

(** Python floats: [x ** y] and [x / y] raise. *)
Definition py_pow (x y : R) : outcome R :=
  match float_pow x y with
  | inr v => Ok v
  | inl ZeroToNegative => Raise ZeroDivisionError
  | inl NegativeToFraction =>
      Raise (ValueError "negative number cannot be raised to a fractional power")
  end.

Definition py_div (x y : R) : outcome R :=
  if Reqb' y 0 then Raise ZeroDivisionError else Ok (x / y).

(** NumPy elements: [x ** y] and [x / y] give [inf] or [nan]. *)
Definition np_pow (x y : R) : outcome R :=
  match float_pow x y with
  | inr v => Ok v
  | inl _ => NonFinite
  end.

Definition np_div (x y : R) : outcome R :=
  if Reqb' y 0 then NonFinite else Ok (x / y).

(** [not xmax] for [xmax] either [None] or a float. *)
Definition not_xmax (xmax : option R) : bool :=
  match xmax with
  | None => true
  | Some v => Reqb' v 0
  end.

Definition alpha_msg : string := "Power law exponent should be greater than 1!".

(** ** [sample] *)

Definition sample (rand : nat -> list R)
    (alpha : R) (size : nat) (xmin : R) (xmax : option R) : outcome (list R) :=
  _ <- py_assert (Rgtb alpha 1) alpha_msg ;;
  let beta := 1 - alpha in
  let r := rand size in
  if not_xmax xmax then
    e <- py_div 1 beta ;;
    p <- mapM (fun ri => np_pow (1 - ri) e) r ;;
    Ok (map (fun pi => xmin * pi) p)
  else
    let xmax := match xmax with Some v => v | None => 0 end in
    a <- py_pow xmin beta ;;
    xb <- py_pow xmax beta ;;
    let b := xb - a in
    e <- py_div 1 beta ;;
    mapM (fun ri => np_pow (a + b * ri) e) r.

(** ** [pdf] *)

Definition pdf (x : list R) (alpha xmin : R) (xmax : option R) : outcome (list R) :=
  _ <- py_assert (Rgtb alpha 1) alpha_msg ;;
  let beta := 1 - alpha in
  if not_xmax xmax then
    xb <- py_pow xmin beta ;;
    k <- py_div (- beta) xb ;;
    p <- mapM (fun xi => np_pow xi (- alpha)) x ;;
    Ok (map (fun pi => k * pi) p)
  else
    let xmax := match xmax with Some v => v | None => 0 end in
    xb <- py_pow xmax beta ;;
    xa <- py_pow xmin beta ;;
    let k := xb - xa in
    c <- py_div beta k ;;
    p <- mapM (fun xi => np_pow xi (- alpha)) x ;;
    Ok (map (fun pi => c * pi) p).

(** ** [cdf] *)

Definition cdf (x : list R) (alpha xmin : R) (xmax : option R) : outcome (list R) :=
  _ <- py_assert (Rgtb alpha 1) alpha_msg ;;
  let beta := 1 - alpha in
  if not_xmax xmax then
    let k := 1 in
    q <- mapM (fun xi => np_div xi xmin) x ;;
    p <- mapM (fun qi => np_pow qi beta) q ;;
    Ok (map (fun pi => k - pi) p)
  else
    let xmax := match xmax with Some v => v | None => 0 end in
    xb <- py_pow xmax beta ;;
    xa <- py_pow xmin beta ;;
    let k := xb - xa in
    p <- mapM (fun xi => np_pow xi beta) x ;;
    xa' <- py_pow xmin beta ;;
    mapM (fun pi => np_div (pi - xa') k) p.

(** ** NumPy pieces used by [histogram]

    [numpy.min], [numpy.max], [numpy.log2], [numpy.log10], [numpy.ceil],
    [numpy.logspace] and [numpy.histogram] are library code; they are
    modelled as NumPy documents them. *)

(** A NumPy scalar: a real number, or one of [inf], [-inf], [nan]. *)
Inductive npfloat : Type :=
| Finite (r : R)
| InfOrNaN.

Definition np_log (base x : R) : npfloat :=
  if Rltb' 0 x then Finite (ln x / ln base) else InfOrNaN.

Definition np_log2 (x : R) : npfloat := np_log 2 x.
Definition np_log10 (x : R) : npfloat := np_log 10 x.

Definition ceilZ (r : R) : Z := (- Int_part (- r))%Z.

(** [int(r)]: truncation towards zero. *)
Definition truncZ (r : R) : Z :=
  if Rleb' 0 r then Int_part r else (- Int_part (- r))%Z.

Definition np_ceil (x : npfloat) : npfloat :=
  match x with
  | Finite r => Finite (IZR (ceilZ r))
  | InfOrNaN => InfOrNaN
  end.

Definition np_add (x : npfloat) (y : R) : npfloat :=
  match x with
  | Finite r => Finite (r + y)
  | InfOrNaN => InfOrNaN
  end.

(** [int(x)] of a NumPy scalar. *)
Definition py_int (x : npfloat) : outcome Z :=
  match x with
  | Finite r => Ok (truncZ r)
  | InfOrNaN => Raise OverflowError
  end.

Definition zero_size_msg (op : string) : string :=
  String.append "zero-size array to reduction operation "
    (String.append op " which has no identity").

(** [a.min()] and [a.max()] *)
Definition np_min (a : list R) : outcome R :=
  match a with
  | [] => Raise (ValueError (zero_size_msg "minimum"))
  | x :: l => Ok (fold_left Rmin l x)
  end.

Definition np_max (a : list R) : outcome R :=
  match a with
  | [] => Raise (ValueError (zero_size_msg "maximum"))
  | x :: l => Ok (fold_left Rmax l x)
  end.

(** [arr[arr != 0.]] *)
Definition nonzero (arr : list R) : list R :=
  filter (fun x => negb (Reqb' x 0)) arr.

(** [numpy.linspace(start, stop, num)]: [num] samples over [[start, stop]],
    both ends included. *)
Definition np_linspace (start stop : R) (num : nat) : list R :=
  let delta := stop - start in
  if (1 <? num)%nat then
    let step := delta / INR (num - 1) in
    map (fun i => INR i * step + start) (seq 0 num)
  else
    map (fun i => INR i * delta + start) (seq 0 num).

(** [numpy.logspace(start, stop, num=num, base=10)] *)
Definition np_logspace (start stop : npfloat) (num : npfloat) : outcome (list R) :=
  n <- py_int num ;;
  if (n <? 0)%Z then
    Raise (ValueError "Number of samples must be non-negative.")
  else
    match start, stop with
    | Finite lo, Finite hi => Ok (map (Rpower 10) (np_linspace lo hi (Z.to_nat n)))
    | _, _ => NonFinite
    end.

(** The values [numpy.histogram] returns first: integer counts, or real
    densities. *)
Inductive hist : Type :=
| Counts (n : list nat)
| Densities (d : list R).

Definition count_if (p : R -> bool) (a : list R) : nat := length (filter p a).

Definition in_bin (lo hi : R) (x : R) : bool := Rleb' lo x && Rltb' x hi.
Definition in_last_bin (lo hi : R) (x : R) : bool := Rleb' lo x && Rleb' x hi.

(** Every bin is half-open but the last, which is closed. *)
Fixpoint bin_counts (a : list R) (edges : list R) : list nat :=
  match edges with
  | lo :: ((hi :: rest) as tl) =>
      match rest with
      | [] => [count_if (in_last_bin lo hi) a]
      | _ :: _ => count_if (in_bin lo hi) a :: bin_counts a tl
      end
  | _ => []
  end.

Fixpoint np_diff (a : list R) : list R :=
  match a with
  | x :: ((y :: _) as tl) => (y - x) :: np_diff tl
  | _ => []
  end.

Fixpoint increasing (a : list R) : bool :=
  match a with
  | x :: ((y :: _) as tl) => Rleb' x y && increasing tl
  | _ => true
  end.

Definition np_sum (n : list nat) : nat := fold_right Nat.add 0%nat n.

(** [numpy.histogram(a, bins=bins, density=density)[0]] for an array of
    edges: with [density], [n / db / n.sum()]. *)
Definition np_histogram (a : list R) (bins : list R) (density : bool) : outcome hist :=
  if negb (increasing bins) then
    Raise (ValueError "bins must increase monotonically.")
  else
    let n := bin_counts a bins in
    if density then
      let db := np_diff bins in
      let total := np_sum n in
      d <- mapM (fun cw => q <- np_div (INR (fst cw)) (snd cw) ;; np_div q (INR total))
                (combine n db) ;;
      Ok (Densities d)
    else
      Ok (Counts n).

(** ** [_logbins] *)

Definition _logbins (arr : list R) : outcome (list R) :=
  let n := length arr in
  let nbins := np_add (np_ceil (np_log2 (INR n))) 1 in
  arrmin <- np_min (nonzero arr) ;;
  arrmax <- np_max arr ;;
  np_logspace (np_log10 arrmin) (np_log10 arrmax) nbins.

(** ** [histogram]

    The keyword options are those the docstring names; each is bound to the
    local of its name by the [exec] loop.  The loop would bind any other
    key as well, a name the body reads ([np], [_logbins]) included: such
    calls are outside the embedding.  [plot] is [False]: the result is
    [(hist, bins)]. *)

Inductive pyval : Type :=
| PyBool (b : bool)
| PyNum (r : R)
| PyStr (s : string).

Definition truthy (v : pyval) : bool :=
  match v with
  | PyBool b => b
  | PyNum r => negb (Reqb' r 0)
  | PyStr s => negb (String.eqb s "")
  end.

Inductive option_name : Type := density | mec | mfc | ms | xlab | fs.

Definition kwargs : Type := list (option_name * pyval).

Record locals : Type := {
  l_density : pyval;
  l_mec : pyval;
  l_mfc : pyval;
  l_ms : pyval;
  l_xlab : pyval;
  l_fs : pyval
}.

Definition default_locals : locals := {|
  l_density := PyBool false;
  l_mec := PyStr "none";
  l_mfc := PyStr "Black";
  l_ms := PyNum 5;
  l_xlab := PyStr "Observable (Units)";
  l_fs := PyNum 12
|}.

(** [exec("%s = kwargs[key]" % key)] *)
Definition exec_assign (l : locals) (kv : option_name * pyval) : locals :=
  let v := snd kv in
  match fst kv with
  | density => {| l_density := v; l_mec := l_mec l; l_mfc := l_mfc l;
                  l_ms := l_ms l; l_xlab := l_xlab l; l_fs := l_fs l |}
  | mec => {| l_density := l_density l; l_mec := v; l_mfc := l_mfc l;
              l_ms := l_ms l; l_xlab := l_xlab l; l_fs := l_fs l |}
  | mfc => {| l_density := l_density l; l_mec := l_mec l; l_mfc := v;
              l_ms := l_ms l; l_xlab := l_xlab l; l_fs := l_fs l |}
  | ms => {| l_density := l_density l; l_mec := l_mec l; l_mfc := l_mfc l;
             l_ms := v; l_xlab := l_xlab l; l_fs := l_fs l |}
  | xlab => {| l_density := l_density l; l_mec := l_mec l; l_mfc := l_mfc l;
               l_ms := l_ms l; l_xlab := v; l_fs := l_fs l |}
  | fs => {| l_density := l_density l; l_mec := l_mec l; l_mfc := l_mfc l;
             l_ms := l_ms l; l_xlab := l_xlab l; l_fs := v |}
  end.

Definition ambiguous_msg : string :=
  "The truth value of an array with more than one element is ambiguous. Use a.any() or a.all()".

(** [not bins] for [bins] either [None] or a one-dimensional array. *)
Definition not_bins (bins : option (list R)) : outcome bool :=
  match bins with
  | None => Ok true
  | Some [] => Ok true
  | Some [e] => Ok (Reqb' e 0)
  | Some (_ :: _ :: _) => Raise (ValueError ambiguous_msg)
  end.

Definition histogram (arr : list R) (bins : option (list R)) (kw : kwargs)
  : outcome (hist * list R) :=
  let l := fold_left exec_assign kw default_locals in
  nb <- not_bins bins ;;
  bins <- (if nb then _logbins arr
           else Ok (match bins with Some b => b | None => [] end)) ;;
  h <- np_histogram arr bins (truthy (l_density l)) ;;
  Ok (h, bins).

(** ** Vocabulary of the properties *)

(** Parameters the functions are meant for, and the support they declare. *)
Definition valid_parameters (alpha xmin : R) (xmax : option R) : Prop :=
  1 < alpha /\ 0 < xmin /\
  match xmax with Some v => xmin < v | None => True end.

Definition in_support (xmin : R) (xmax : option R) (x : R) : Prop :=
  xmin <= x /\ match xmax with Some v => x <= v | None => True end.

(** Failing on the assertion of a function. *)
Definition invalid_parameter {A : Type} (o : outcome A) : Prop :=
  exists msg, o = Raise (AssertionError msg).

(** [never P o]: the outcome [o] is not an exception in [P]. *)
Definition never {A : Type} (P : exn -> Prop) (o : outcome A) : Prop :=
  forall e, P e -> o <> Raise e.

Definition is_assertion (e : exn) : Prop := exists msg, e = AssertionError msg.

Definition any_exn (e : exn) : Prop := True.

Definition no_assert {A : Type} (o : outcome A) : Prop := never is_assertion o.

Definition no_raise {A : Type} (o : outcome A) : Prop := never any_exn o.

Definition is_minimum (l : list R) (m : R) : Prop :=
  In m l /\ forall y, In y l -> m <= y.

Definition is_maximum (l : list R) (M : R) : Prop :=
  In M l /\ forall y, In y l -> y <= M.

Definition log10 (x : R) : R := ln x / ln 10.

Definition linspace_step (start stop : R) (num : nat) : R :=
  if (1 <? num)%nat then (stop - start) / INR (num - 1) else stop - start.

(** The default edges in closed form: edge [i] is [10 ** (lo + i * step)]. *)
Definition log_edges (lo hi : R) (num : nat) : list R :=
  map (fun i => Rpower 10 (INR i * linspace_step lo hi num + lo)) (seq 0 num).

(** The non-zero minimum and the maximum [_logbins] takes, and the edges it
    builds from them. *)
Definition min_nonzero (arr : list R) : R :=
  match nonzero arr with
  | [] => 0
  | x :: l => fold_left Rmin l x
  end.

Definition max_element (arr : list R) : R :=
  match arr with
  | [] => 0
  | x :: l => fold_left Rmax l x
  end.

Definition default_edges (arr : list R) : list R :=
  log_edges (log10 (min_nonzero arr)) (log10 (max_element arr))
            (Nat.log2_up (length arr) + 1).

(** The value of the local [density] when [numpy.histogram] is called. *)
Definition normalize (kw : kwargs) : bool :=
  truthy (l_density (fold_left exec_assign kw default_locals)).

(** [arr[arr > 0]] *)
Definition positives (arr : list R) : list R := filter (fun x => Rltb' 0 x) arr.

(** The edges in the words of the specification: [ceil(log2(n)) + 1] points,
    evenly spaced in log10 between [log10(arrMin)] and [log10(arrMax)]. *)
Definition spec_numBins (n : nat) : nat :=
  (Z.to_nat (ceilZ (ln (INR n) / ln 2)) + 1)%nat.

Definition spec_edges (numBins : nat) (arrMin arrMax : R) : list R :=
  map (fun i => Rpower 10 (log10 arrMin
                           + INR i * ((log10 arrMax - log10 arrMin)
                                      / INR (numBins - 1))))
      (seq 0 numBins).

(** The sample [0, 1, 2]: three elements, two of them in the default edges. *)
Definition zero_one_two : list R := [0; 1; 2].

(** The number of values a histogram holds. *)
Definition hist_length (h : hist) : nat :=
  match h with
  | Counts n => length n
  | Densities d => length d
  end.

(** The variate [sample] computes from one uniform draw [u]. *)
Definition variate (alpha xmin : R) (xmax : option R) (u : R) : R :=
  match xmax with
  | Some v =>
      Rpower (Rpower xmin (1 - alpha)
              + (Rpower v (1 - alpha) - Rpower xmin (1 - alpha)) * u)
             (1 / (1 - alpha))
  | None => xmin * Rpower (1 - u) (1 / (1 - alpha))
  end.

(** * Properties *)

(** ** Deciding comparisons *)

Ltac rdec :=
  unfold Rgtb, Rltb', Rleb', Reqb' in *;
  repeat match goal with
  | |- context [Rlt_dec ?a ?b] => destruct (Rlt_dec a b)
  | |- context [Rle_dec ?a ?b] => destruct (Rle_dec a b)
  | |- context [Req_dec_T ?a ?b] => destruct (Req_dec_T a b)
  end;
  simpl; try reflexivity; try lra.

Lemma Rgtb_true (x y : R) : y < x -> Rgtb x y = true.
Proof. intros; rdec. Qed.

Lemma Rgtb_false (x y : R) : x <= y -> Rgtb x y = false.
Proof. intros; rdec. Qed.

Lemma Rltb'_true (x y : R) : x < y -> Rltb' x y = true.
Proof. intros; rdec. Qed.

Lemma Rltb'_false (x y : R) : y <= x -> Rltb' x y = false.
Proof. intros; rdec. Qed.

Lemma Rleb'_true (x y : R) : x <= y -> Rleb' x y = true.
Proof. intros; rdec. Qed.

Lemma Rleb'_false (x y : R) : y < x -> Rleb' x y = false.
Proof. intros; rdec. Qed.

Lemma Reqb'_false (x y : R) : x <> y -> Reqb' x y = false.
Proof. intros; rdec; try congruence. Qed.

Lemma Reqb'_true (x y : R) : x = y -> Reqb' x y = true.
Proof. intros; rdec; try congruence. Qed.

(** ** Powers of positive numbers *)

Lemma Rpower_pos (x y : R) : 0 < Rpower x y.
Proof. unfold Rpower. apply exp_pos. Qed.

Lemma Rpower_decr (x y b : R) :
  0 < x -> x < y -> b < 0 -> Rpower y b < Rpower x b.
Proof.
  intros Hx Hxy Hb. unfold Rpower. apply exp_increasing.
  pose proof (ln_increasing x y Hx Hxy). nra.
Qed.

Lemma Rpower_decr_le (x y b : R) :
  0 < x -> x <= y -> b < 0 -> Rpower y b <= Rpower x b.
Proof.
  intros Hx [Hxy | ->] Hb.
  - left. now apply Rpower_decr.
  - right. reflexivity.
Qed.

Lemma Rpower_base_one (b : R) : Rpower 1 b = 1.
Proof. unfold Rpower. rewrite ln_1, Rmult_0_r. apply exp_0. Qed.

Lemma Rpower_root (x b : R) : 0 < x -> b <> 0 -> Rpower (Rpower x b) (1 / b) = x.
Proof.
  intros Hx Hb. rewrite Rpower_mult.
  replace (b * (1 / b)) with 1 by (field; exact Hb).
  now apply Rpower_1.
Qed.

Lemma float_pow_pos (x y : R) : 0 < x -> float_pow x y = inr (Rpower x y).
Proof.
  intros Hx. unfold float_pow.
  destruct (Req_dec_T y 0) as [-> | Hy].
  - rewrite Reqb'_true by reflexivity. now rewrite Rpower_O.
  - rewrite Reqb'_false by exact Hy. now rewrite Rltb'_true.
Qed.

Lemma py_pow_pos (x y : R) : 0 < x -> py_pow x y = Ok (Rpower x y).
Proof. intros Hx. unfold py_pow. now rewrite float_pow_pos. Qed.

Lemma np_pow_pos (x y : R) : 0 < x -> np_pow x y = Ok (Rpower x y).
Proof. intros Hx. unfold np_pow. now rewrite float_pow_pos. Qed.

Lemma py_div_nonzero (x y : R) : y <> 0 -> py_div x y = Ok (x / y).
Proof. intros Hy. unfold py_div. now rewrite Reqb'_false. Qed.

Lemma np_div_nonzero (x y : R) : y <> 0 -> np_div x y = Ok (x / y).
Proof. intros Hy. unfold np_div. now rewrite Reqb'_false. Qed.

(** ** Elementwise evaluation *)

Lemma mapM_Ok {A B : Type} (f : A -> outcome B) (g : A -> B) (l : list A) :
  Forall (fun a => f a = Ok (g a)) l -> mapM f l = Ok (map g l).
Proof.
  induction 1 as [| a l Ha _ IH]; simpl.
  - reflexivity.
  - now rewrite Ha, IH.
Qed.

Lemma Forall_map_iff {A B : Type} (P : B -> Prop) (g : A -> B) (l : list A) :
  Forall P (map g l) <-> Forall (fun a => P (g a)) l.
Proof. apply Forall_map. Qed.

(** ** Parameters and support *)

Lemma not_xmax_bounded (xmin v : R) : 0 < xmin -> xmin < v -> not_xmax (Some v) = false.
Proof. intros. simpl. apply Reqb'_false. lra. Qed.

(** Closed forms of the three functions on valid parameters. *)

Lemma cdf_unbounded (x : list R) (alpha xmin : R) :
  1 < alpha -> 0 < xmin -> Forall (fun xi => 0 < xi) x ->
  cdf x alpha xmin None
  = Ok (map (fun xi => 1 - Rpower (xi / xmin) (1 - alpha)) x).
Proof.
  intros Ha Hm Hx. unfold cdf.
  rewrite Rgtb_true by exact Ha. simpl.
  rewrite (mapM_Ok _ (fun xi => xi / xmin)).
  2:{ apply Forall_forall. intros xi _. apply np_div_nonzero. lra. }
  simpl.
  rewrite (mapM_Ok _ (fun q => Rpower q (1 - alpha))).
  2:{ apply Forall_map_iff. revert Hx. apply Forall_impl. intros xi Hxi.
      apply np_pow_pos. now apply Rdiv_lt_0_compat. }
  simpl. now rewrite !map_map.
Qed.

Lemma Rpower_gap (alpha xmin v : R) :
  1 < alpha -> 0 < xmin -> xmin < v ->
  Rpower v (1 - alpha) - Rpower xmin (1 - alpha) < 0.
Proof.
  intros Ha Hm Hv.
  pose proof (Rpower_decr xmin v (1 - alpha) Hm Hv). lra.
Qed.

Lemma cdf_bounded (x : list R) (alpha xmin v : R) :
  1 < alpha -> 0 < xmin -> xmin < v -> Forall (fun xi => 0 < xi) x ->
  cdf x alpha xmin (Some v)
  = Ok (map (fun xi => (Rpower xi (1 - alpha) - Rpower xmin (1 - alpha))
                       / (Rpower v (1 - alpha) - Rpower xmin (1 - alpha))) x).
Proof.
  intros Ha Hm Hv Hx. unfold cdf.
  rewrite Rgtb_true by exact Ha.
  rewrite (not_xmax_bounded xmin v) by assumption.
  rewrite !py_pow_pos by lra. simpl bind.
  rewrite (mapM_Ok _ (fun xi => Rpower xi (1 - alpha))).
  2:{ revert Hx. apply Forall_impl. intros xi Hxi. now apply np_pow_pos. }
  simpl bind.
  rewrite (mapM_Ok _ (fun p => (p - Rpower xmin (1 - alpha))
                      / (Rpower v (1 - alpha) - Rpower xmin (1 - alpha)))).
  2:{ apply Forall_forall. intros p _. apply np_div_nonzero.
      pose proof (Rpower_gap alpha xmin v Ha Hm Hv). lra. }
  now rewrite map_map.
Qed.

Lemma pdf_unbounded (x : list R) (alpha xmin : R) :
  1 < alpha -> 0 < xmin -> Forall (fun xi => 0 < xi) x ->
  pdf x alpha xmin None
  = Ok (map (fun xi => (- (1 - alpha) / Rpower xmin (1 - alpha))
                       * Rpower xi (- alpha)) x).
Proof.
  intros Ha Hm Hx. unfold pdf.
  rewrite Rgtb_true by exact Ha. simpl bind. simpl not_xmax. cbv iota.
  rewrite py_pow_pos by exact Hm. simpl bind.
  rewrite py_div_nonzero.
  2:{ pose proof (Rpower_pos xmin (1 - alpha)). lra. }
  simpl bind.
  rewrite (mapM_Ok _ (fun xi => Rpower xi (- alpha))).
  2:{ revert Hx. apply Forall_impl. intros xi Hxi. now apply np_pow_pos. }
  simpl bind. now rewrite map_map.
Qed.

Lemma pdf_bounded (x : list R) (alpha xmin v : R) :
  1 < alpha -> 0 < xmin -> xmin < v -> Forall (fun xi => 0 < xi) x ->
  pdf x alpha xmin (Some v)
  = Ok (map (fun xi => ((1 - alpha)
                        / (Rpower v (1 - alpha) - Rpower xmin (1 - alpha)))
                       * Rpower xi (- alpha)) x).
Proof.
  intros Ha Hm Hv Hx. unfold pdf.
  rewrite Rgtb_true by exact Ha.
  rewrite (not_xmax_bounded xmin v) by assumption.
  rewrite !py_pow_pos by lra. simpl bind.
  rewrite py_div_nonzero.
  2:{ pose proof (Rpower_gap alpha xmin v Ha Hm Hv). lra. }
  simpl bind.
  rewrite (mapM_Ok _ (fun xi => Rpower xi (- alpha))).
  2:{ revert Hx. apply Forall_impl. intros xi Hxi. now apply np_pow_pos. }
  simpl bind. now rewrite map_map.
Qed.

Lemma inv_beta_neg (alpha : R) : 1 < alpha -> 1 / (1 - alpha) < 0.
Proof.
  intros Ha. unfold Rdiv. rewrite Rmult_1_l.
  apply Rinv_lt_0_compat. lra.
Qed.

Lemma sample_unbounded (rand : nat -> list R) (alpha : R) (size : nat) (xmin : R) :
  1 < alpha -> Forall (fun u => 0 <= u < 1) (rand size) ->
  sample rand alpha size xmin None
  = Ok (map (fun u => xmin * Rpower (1 - u) (1 / (1 - alpha))) (rand size)).
Proof.
  intros Ha Hr. unfold sample.
  rewrite Rgtb_true by exact Ha. simpl not_xmax. cbv iota.
  rewrite py_div_nonzero by lra. simpl bind.
  rewrite (mapM_Ok _ (fun u => Rpower (1 - u) (1 / (1 - alpha)))).
  2:{ revert Hr. apply Forall_impl. intros u Hu. apply np_pow_pos. lra. }
  simpl bind. now rewrite map_map.
Qed.

Lemma sample_bounded (rand : nat -> list R) (alpha : R) (size : nat) (xmin v : R) :
  1 < alpha -> 0 < xmin -> xmin < v ->
  Forall (fun u => 0 <= u < 1) (rand size) ->
  sample rand alpha size xmin (Some v)
  = Ok (map (fun u => Rpower (Rpower xmin (1 - alpha)
                              + (Rpower v (1 - alpha) - Rpower xmin (1 - alpha)) * u)
                             (1 / (1 - alpha))) (rand size)).
Proof.
  intros Ha Hm Hv Hr. unfold sample.
  rewrite Rgtb_true by exact Ha.
  rewrite (not_xmax_bounded xmin v) by assumption.
  rewrite !py_pow_pos by lra.
  rewrite py_div_nonzero by lra. simpl bind.
  apply mapM_Ok.
  revert Hr. apply Forall_impl. intros u Hu. apply np_pow_pos.
  pose proof (Rpower_gap alpha xmin v Ha Hm Hv).
  pose proof (Rpower_pos v (1 - alpha)). nra.
Qed.

(** ** The assertion *)

Section Never.
Context {A B : Type} (P : exn -> Prop).

Lemma never_Ok (a : A) : never P (Ok a).
Proof. intros e _ H. discriminate H. Qed.

Lemma never_NonFinite : never P (@NonFinite A).
Proof. intros e _ H. discriminate H. Qed.

Lemma never_bind (m : outcome A) (f : A -> outcome B) :
  never P m -> (forall a, never P (f a)) -> never P (bind m f).
Proof.
  intros Hm Hf. destruct m as [a | e |]; simpl.
  - apply Hf.
  - intros e' He' H. apply (Hm e' He'). injection H as ->. reflexivity.
  - intros e' _ H. discriminate H.
Qed.
End Never.

Lemma never_mapM {A B : Type} (P : exn -> Prop) (f : A -> outcome B) (l : list A) :
  (forall a, never P (f a)) -> never P (mapM f l).
Proof.
  intros Hf. induction l as [| a l IH]; simpl.
  - apply never_Ok.
  - apply (never_bind P (f a) (fun b => bs <- mapM f l ;; Ok (b :: bs))).
    + apply Hf.
    + intros b. apply (never_bind P (mapM f l) (fun bs => Ok (b :: bs))).
      * exact IH.
      * intros bs. apply never_Ok.
Qed.

Lemma never_np_pow (P : exn -> Prop) (x y : R) : never P (np_pow x y).
Proof.
  unfold np_pow. destruct (float_pow x y) as [[|] | v]; intros e _ H; discriminate H.
Qed.

Lemma never_np_div (P : exn -> Prop) (x y : R) : never P (np_div x y).
Proof. unfold np_div. destruct (Reqb' y 0); intros e _ H; discriminate H. Qed.

Lemma no_assert_py_pow (x y : R) : never is_assertion (py_pow x y).
Proof.
  unfold py_pow.
  destruct (float_pow x y) as [[|] | v]; intros e [msg ->] H; discriminate H.
Qed.

Lemma no_assert_py_div (x y : R) : never is_assertion (py_div x y).
Proof.
  unfold py_div. destruct (Reqb' y 0); intros e [msg ->] H; discriminate H.
Qed.

Create HintDb bpl.

#[local] Hint Resolve never_Ok never_NonFinite never_np_pow never_np_div
  no_assert_py_pow no_assert_py_div : bpl.

Ltac never_tac :=
  repeat first
    [ apply never_bind; [ | intros ? ]
    | apply never_mapM; intros ?
    | solve [ auto with bpl ] ].

Lemma sample_no_assert rand alpha size xmin xmax :
  1 < alpha -> no_assert (sample rand alpha size xmin xmax).
Proof.
  intros Ha. unfold no_assert, sample. rewrite Rgtb_true by exact Ha. simpl bind.
  destruct (not_xmax xmax); never_tac.
Qed.

Lemma pdf_no_assert x alpha xmin xmax :
  1 < alpha -> no_assert (pdf x alpha xmin xmax).
Proof.
  intros Ha. unfold no_assert, pdf. rewrite Rgtb_true by exact Ha. simpl bind.
  destruct (not_xmax xmax); never_tac.
Qed.

Lemma cdf_no_assert x alpha xmin xmax :
  1 < alpha -> no_assert (cdf x alpha xmin xmax).
Proof.
  intros Ha. unfold no_assert, cdf. rewrite Rgtb_true by exact Ha. simpl bind.
  destruct (not_xmax xmax); never_tac.
Qed.

Lemma sample_asserts rand alpha size xmin xmax :
  alpha <= 1 -> sample rand alpha size xmin xmax = Raise (AssertionError alpha_msg).
Proof. intros Ha. unfold sample. now rewrite Rgtb_false. Qed.

Lemma pdf_asserts x alpha xmin xmax :
  alpha <= 1 -> pdf x alpha xmin xmax = Raise (AssertionError alpha_msg).
Proof. intros Ha. unfold pdf. now rewrite Rgtb_false. Qed.

Lemma cdf_asserts x alpha xmin xmax :
  alpha <= 1 -> cdf x alpha xmin xmax = Raise (AssertionError alpha_msg).
Proof. intros Ha. unfold cdf. now rewrite Rgtb_false. Qed.

Lemma assert_iff {A : Type} (o : outcome A) (alpha : R) :
  (alpha <= 1 -> o = Raise (AssertionError alpha_msg)) ->
  (1 < alpha -> no_assert o) ->
  (invalid_parameter o <-> alpha <= 1)
  /\ (invalid_parameter o <-> o = Raise (AssertionError alpha_msg)).
Proof.
  intros Hle Hgt. split; split.
  - intros [msg H]. destruct (Rle_dec alpha 1) as [Hd | Hd]; [exact Hd |].
    exfalso. apply (Hgt ltac:(lra) (AssertionError msg)); [now exists msg | exact H].
  - intros Ha. exists alpha_msg. now apply Hle.
  - intros [msg H]. destruct (Rle_dec alpha 1) as [Hd | Hd]; [now apply Hle |].
    exfalso. apply (Hgt ltac:(lra) (AssertionError msg)); [now exists msg | exact H].
  - intros H. exists alpha_msg. exact H.
Qed.

(** C1, as stated, fails: with [alpha = 2.5], [xmin = 10] and the upper
    bound [xmax = 5] below [xmin], [sample], [pdf] and [cdf] all return
    normally. *)
Lemma bounds_unchecked_counterexample :
  5 <= 10
  /\ (exists s, sample (fun n => repeat (1 / 2) n) (5 / 2) 1 10 (Some 5) = Ok s)
  /\ (exists p, pdf [7] (5 / 2) 10 (Some 5) = Ok p)
  /\ (exists c, cdf [7] (5 / 2) 10 (Some 5) = Ok c).
Proof.
  assert (Hgap : 0 < Rpower 5 (1 - 5 / 2) - Rpower 10 (1 - 5 / 2)).
  { pose proof (Rpower_decr 5 10 (1 - 5 / 2)). lra. }
  pose proof (Rpower_pos 10 (1 - 5 / 2)) as H10.
  split; [lra |]. repeat split.
  - unfold sample. rewrite Rgtb_true by lra.
    replace (not_xmax (Some 5)) with false by (symmetry; apply Reqb'_false; lra).
    rewrite !py_pow_pos by lra. rewrite py_div_nonzero by lra.
    simpl. rewrite np_pow_pos by nra. simpl. eexists. reflexivity.
  - unfold pdf. rewrite Rgtb_true by lra.
    replace (not_xmax (Some 5)) with false by (symmetry; apply Reqb'_false; lra).
    rewrite !py_pow_pos by lra. simpl bind.
    rewrite py_div_nonzero by lra.
    simpl. rewrite np_pow_pos by lra. simpl. eexists. reflexivity.
  - unfold cdf. rewrite Rgtb_true by lra.
    replace (not_xmax (Some 5)) with false by (symmetry; apply Reqb'_false; lra).
    rewrite !py_pow_pos by lra.
    simpl. rewrite np_pow_pos by lra. simpl.
    rewrite np_div_nonzero by lra. simpl. eexists. reflexivity.
Qed.

(** C1, amended: [sample], [pdf] and [cdf] fail on their assertion exactly
    when [alpha <= 1], always with the same error and whatever the other
    arguments are; [xmin] and [xmax] are not validated. *)
Theorem assertion_checks_alpha_only
    (rand : nat -> list R) (x : list R) (alpha : R) (size : nat)
    (xmin : R) (xmax : option R) :
  ((invalid_parameter (sample rand alpha size xmin xmax) <-> alpha <= 1)
   /\ (invalid_parameter (sample rand alpha size xmin xmax)
       <-> sample rand alpha size xmin xmax = Raise (AssertionError alpha_msg)))
  /\ ((invalid_parameter (pdf x alpha xmin xmax) <-> alpha <= 1)
      /\ (invalid_parameter (pdf x alpha xmin xmax)
          <-> pdf x alpha xmin xmax = Raise (AssertionError alpha_msg)))
  /\ ((invalid_parameter (cdf x alpha xmin xmax) <-> alpha <= 1)
      /\ (invalid_parameter (cdf x alpha xmin xmax)
          <-> cdf x alpha xmin xmax = Raise (AssertionError alpha_msg))).
Proof.
  split; [| split]; apply assert_iff.
  - apply sample_asserts.
  - apply sample_no_assert.
  - apply pdf_asserts.
  - apply pdf_no_assert.
  - apply cdf_asserts.
  - apply cdf_no_assert.
Qed.

(** ** The distribution function *)

(** C6: at [xmin] the distribution function is 0, with and without an
    upper bound, and at the upper bound it is 1. *)
Theorem cdf_endpoints (alpha xmin : R) (xmax : option R) :
  valid_parameters alpha xmin xmax ->
  cdf [xmin] alpha xmin xmax = Ok [0]
  /\ match xmax with
     | Some v => cdf [v] alpha xmin (Some v) = Ok [1]
     | None => True
     end.
Proof.
  intros (Ha & Hm & Hv). destruct xmax as [v |].
  - pose proof (Rpower_gap alpha xmin v Ha Hm Hv) as Hgap. split.
    + rewrite cdf_bounded; try assumption.
      2:{ constructor; [exact Hm | constructor]. }
      simpl. do 2 f_equal. field. lra.
    + rewrite cdf_bounded; try assumption.
      2:{ constructor; [lra | constructor]. }
      simpl. do 2 f_equal. field. lra.
  - split; [| exact I].
    rewrite cdf_unbounded; try assumption.
    2:{ constructor; [exact Hm | constructor]. }
    simpl. do 2 f_equal.
    replace (xmin / xmin) with 1 by (field; lra).
    rewrite Rpower_base_one. ring.
Qed.

Lemma cdf_endpoints_witness :
  valid_parameters (5 / 2) 10 (Some 100000)
  /\ cdf [10] (5 / 2) 10 (Some 100000) = Ok [0]
  /\ cdf [100000] (5 / 2) 10 (Some 100000) = Ok [1].
Proof.
  assert (H : valid_parameters (5 / 2) 10 (Some 100000)).
  { unfold valid_parameters. repeat split; lra. }
  split; [exact H |].
  exact (cdf_endpoints (5 / 2) 10 (Some 100000) H).
Defined.

(** C7: on two points of the support, in order, the distribution function
    returns two values in the same order. *)
Theorem cdf_monotone (alpha xmin : R) (xmax : option R) (x1 x2 : R) :
  valid_parameters alpha xmin xmax ->
  in_support xmin xmax x1 -> in_support xmin xmax x2 -> x1 <= x2 ->
  exists c1 c2,
    cdf [x1; x2] alpha xmin xmax = Ok [c1; c2] /\ c1 <= c2.
Proof.
  intros (Ha & Hm & Hv) [H1 H1'] [H2 H2'] H12.
  assert (Hx : Forall (fun xi => 0 < xi) [x1; x2]).
  { repeat constructor; lra. }
  destruct xmax as [v |].
  - rewrite cdf_bounded by assumption. simpl.
    do 2 eexists. split; [reflexivity |].
    pose proof (Rpower_gap alpha xmin v Ha Hm Hv) as Hgap.
    assert (Hd : Rpower x2 (1 - alpha) <= Rpower x1 (1 - alpha)).
    { apply Rpower_decr_le; lra. }
    set (k := Rpower v (1 - alpha) - Rpower xmin (1 - alpha)) in *.
    unfold Rdiv.
    assert (Hk : / k < 0) by (apply Rinv_lt_0_compat; exact Hgap).
    nra.
  - rewrite cdf_unbounded by assumption. simpl.
    do 2 eexists. split; [reflexivity |].
    assert (Hd : Rpower (x2 / xmin) (1 - alpha) <= Rpower (x1 / xmin) (1 - alpha)).
    { apply Rpower_decr_le; [| | lra].
      - apply Rdiv_lt_0_compat; lra.
      - unfold Rdiv. apply Rmult_le_compat_r; [| exact H12].
        left. now apply Rinv_0_lt_compat. }
    lra.
Qed.

Lemma cdf_monotone_witness :
  exists c1 c2,
    cdf [10; 100] (5 / 2) 10 None = Ok [c1; c2] /\ c1 <= c2.
Proof.
  apply (cdf_monotone (5 / 2) 10 None 10 100).
  - unfold valid_parameters. repeat split; lra.
  - unfold in_support. split; [lra | exact I].
  - unfold in_support. split; [lra | exact I].
  - lra.
Defined.

(** ** The density *)

(** C8: on points of the support the density is non-negative, with and
    without an upper bound. *)
Theorem pdf_nonnegative (x : list R) (alpha xmin : R) (xmax : option R) :
  valid_parameters alpha xmin xmax ->
  Forall (in_support xmin xmax) x ->
  exists p,
    pdf x alpha xmin xmax = Ok p
    /\ length p = length x
    /\ Forall (fun pi => 0 <= pi) p.
Proof.
  intros (Ha & Hm & Hv) Hs.
  assert (Hx : Forall (fun xi => 0 < xi) x).
  { revert Hs. apply Forall_impl. intros xi [Hxi _]. lra. }
  destruct xmax as [v |].
  - rewrite pdf_bounded by assumption.
    eexists. split; [reflexivity |]. split; [apply length_map |].
    apply Forall_map_iff. apply Forall_forall. intros xi _.
    pose proof (Rpower_gap alpha xmin v Ha Hm Hv) as Hgap.
    pose proof (Rpower_pos xi (- alpha)) as Hp.
    set (k := Rpower v (1 - alpha) - Rpower xmin (1 - alpha)) in *.
    assert (Hk : / k < 0) by (apply Rinv_lt_0_compat; exact Hgap).
    unfold Rdiv. apply Rmult_le_pos; [nra | lra].
  - rewrite pdf_unbounded by assumption.
    eexists. split; [reflexivity |]. split; [apply length_map |].
    apply Forall_map_iff. apply Forall_forall. intros xi _.
    pose proof (Rpower_pos xi (- alpha)) as Hp.
    pose proof (Rpower_pos xmin (1 - alpha)) as Hq.
    assert (Hk : 0 < / Rpower xmin (1 - alpha)) by now apply Rinv_0_lt_compat.
    unfold Rdiv. apply Rmult_le_pos; [nra | lra].
Qed.

Lemma pdf_nonnegative_witness :
  exists p,
    pdf [10; 1000; 100000] (5 / 2) 10 (Some 100000) = Ok p
    /\ length p = length [10; 1000; 100000]
    /\ Forall (fun pi => 0 <= pi) p.
Proof.
  apply (pdf_nonnegative [10; 1000; 100000] (5 / 2) 10 (Some 100000)).
  - unfold valid_parameters. repeat split; lra.
  - unfold in_support. repeat constructor; lra.
Defined.

(** ** The sampler *)

(** C2: on uniform draws in [[0, 1)] every variate is at least [xmin], and
    at most [xmax] when an upper bound is given. *)
Theorem sample_in_support
    (rand : nat -> list R) (alpha : R) (size : nat) (xmin : R) (xmax : option R) :
  valid_parameters alpha xmin xmax ->
  Forall (fun u => 0 <= u < 1) (rand size) ->
  exists s,
    sample rand alpha size xmin xmax = Ok s
    /\ length s = length (rand size)
    /\ Forall (in_support xmin xmax) s.
Proof.
  intros (Ha & Hm & Hv) Hr.
  pose proof (inv_beta_neg alpha Ha) as He.
  destruct xmax as [v |].
  - rewrite sample_bounded by assumption.
    eexists. split; [reflexivity |]. split; [apply length_map |].
    apply Forall_map_iff. revert Hr. apply Forall_impl. intros u [Hu0 Hu1].
    pose proof (Rpower_gap alpha xmin v Ha Hm Hv) as Hgap.
    pose proof (Rpower_pos v (1 - alpha)) as Hpv.
    set (a := Rpower xmin (1 - alpha)) in *.
    set (b := Rpower v (1 - alpha) - a) in *.
    assert (Hlo : Rpower v (1 - alpha) <= a + b * u) by (unfold b in *; nra).
    assert (Hhi : a + b * u <= a) by nra.
    split.
    + apply Rle_trans with (Rpower a (1 / (1 - alpha))).
      * right. symmetry. apply Rpower_root; lra.
      * apply Rpower_decr_le; [lra | exact Hhi | exact He].
    + apply Rle_trans with (Rpower (Rpower v (1 - alpha)) (1 / (1 - alpha))).
      * apply Rpower_decr_le; [exact Hpv | exact Hlo | exact He].
      * right. apply Rpower_root; lra.
  - rewrite sample_unbounded by assumption.
    eexists. split; [reflexivity |]. split; [apply length_map |].
    apply Forall_map_iff. revert Hr. apply Forall_impl. intros u [Hu0 Hu1].
    split; [| exact I].
    assert (H1 : 1 <= Rpower (1 - u) (1 / (1 - alpha))).
    { rewrite <- (Rpower_base_one (1 / (1 - alpha))) at 1.
      apply Rpower_decr_le; lra. }
    nra.
Qed.

Lemma sample_in_support_witness :
  exists s,
    sample (fun n => repeat (1 / 2) n) (5 / 2) 2 10 (Some 100000) = Ok s
    /\ length s = length (repeat (1 / 2) 2)
    /\ Forall (in_support 10 (Some 100000)) s.
Proof.
  apply (sample_in_support (fun n => repeat (1 / 2) n) (5 / 2) 2 10 (Some 100000)).
  - unfold valid_parameters. repeat split; lra.
  - simpl. repeat constructor; lra.
Defined.

(** ** Sturges' rule *)

Lemma ln_le_mono (x y : R) : 0 < x -> x <= y -> ln x <= ln y.
Proof.
  intros Hx [Hxy | ->].
  - left. now apply ln_increasing.
  - right. reflexivity.
Qed.

Lemma ln2_pos : 0 < ln 2.
Proof. pose proof ln_lt_2. lra. Qed.

Lemma ln10_pos : 0 < ln 10.
Proof. rewrite <- ln_1. apply ln_increasing; lra. Qed.

Lemma ln_pow2 (k : nat) : ln (INR (2 ^ k)) = INR k * ln 2.
Proof.
  rewrite pow_INR. change (INR 2) with (1 + 1). replace (1 + 1) with 2 by ring.
  apply ln_pow. lra.
Qed.

Lemma log2_bounds (n : nat) :
  (1 <= n)%nat ->
  INR (Nat.log2_up n) - 1 < ln (INR n) / ln 2 <= INR (Nat.log2_up n).
Proof.
  intros Hn. pose proof ln2_pos as H2.
  assert (Hdiv : forall t, t / ln 2 * ln 2 = t) by (intros t; field; lra).
  destruct (Nat.eq_dec n 1) as [-> | Hne].
  - rewrite Nat.log2_up_1. simpl INR. rewrite ln_1.
    unfold Rdiv. rewrite Rmult_0_l. lra.
  - assert (H1 : (1 < n)%nat) by lia.
    pose proof (Nat.log2_up_spec n H1) as [Hlo Hhi].
    pose proof (Nat.log2_up_pos n H1) as Hk.
    set (k := Nat.log2_up n) in *.
    assert (Hn0 : 0 < INR n) by (apply lt_0_INR; lia).
    assert (Hp0 : 0 < INR (2 ^ Nat.pred k)).
    { apply lt_0_INR. apply Nat.neq_0_lt_0. apply Nat.pow_nonzero. lia. }
    assert (Ha : ln (INR (2 ^ Nat.pred k)) < ln (INR n)).
    { apply ln_increasing; [exact Hp0 |]. now apply lt_INR. }
    assert (Hb : ln (INR n) <= ln (INR (2 ^ k))).
    { apply ln_le_mono; [exact Hn0 |]. now apply le_INR. }
    rewrite ln_pow2 in Ha, Hb.
    assert (Hpred : INR (Nat.pred k) = INR k - 1).
    { replace k with (S (Nat.pred k)) at 2 by lia. rewrite S_INR. ring. }
    rewrite Hpred in Ha.
    pose proof (Hdiv (ln (INR n))) as Hd.
    split; nra.
Qed.

Lemma ceilZ_spec (r : R) (z : Z) : IZR z - 1 < r <= IZR z -> ceilZ r = z.
Proof.
  intros [Hlo Hhi]. unfold ceilZ.
  rewrite <- (Int_part_spec (- r) (- z)%Z).
  - lia.
  - rewrite opp_IZR. lra.
Qed.

Lemma Int_part_IZR (z : Z) : Int_part (IZR z) = z.
Proof. symmetry. apply Int_part_spec. lra. Qed.

Lemma truncZ_IZR (z : Z) : (0 <= z)%Z -> truncZ (IZR z) = z.
Proof.
  intros Hz. unfold truncZ.
  rewrite Rleb'_true by (now apply IZR_le).
  apply Int_part_IZR.
Qed.

Lemma ceil_log2 (n : nat) :
  (1 <= n)%nat -> ceilZ (ln (INR n) / ln 2) = Z.of_nat (Nat.log2_up n).
Proof.
  intros Hn. apply ceilZ_spec. rewrite <- INR_IZR_INZ. now apply log2_bounds.
Qed.

Lemma sturges (n : nat) :
  (1 <= n)%nat ->
  np_add (np_ceil (np_log2 (INR n))) 1
  = Finite (IZR (Z.of_nat (Nat.log2_up n + 1))).
Proof.
  intros Hn. unfold np_log2, np_log.
  rewrite Rltb'_true by (apply lt_0_INR; lia).
  simpl. rewrite ceil_log2 by exact Hn.
  f_equal. rewrite Nat2Z.inj_add, plus_IZR. reflexivity.
Qed.

(** ** Minimum and maximum *)

Lemma fold_Rmin_spec (l : list R) (x : R) :
  In (fold_left Rmin l x) (x :: l)
  /\ forall y, In y (x :: l) -> fold_left Rmin l x <= y.
Proof.
  revert x. induction l as [| a l IH]; intros x; simpl.
  - split; [now left |]. intros y [<- | []]. lra.
  - destruct (IH (Rmin x a)) as [Hin Hle]. split.
    + destruct Hin as [Heq | Hin].
      * rewrite <- Heq. unfold Rmin. destruct (Rle_dec x a); auto.
      * right. right. exact Hin.
    + intros y Hy.
      assert (Hm : fold_left Rmin l (Rmin x a) <= Rmin x a).
      { apply Hle. now left. }
      destruct Hy as [<- | [<- | Hy]].
      * pose proof (Rmin_l x a). lra.
      * pose proof (Rmin_r x a). lra.
      * apply Hle. now right.
Qed.

Lemma fold_Rmax_spec (l : list R) (x : R) :
  In (fold_left Rmax l x) (x :: l)
  /\ forall y, In y (x :: l) -> y <= fold_left Rmax l x.
Proof.
  revert x. induction l as [| a l IH]; intros x; simpl.
  - split; [now left |]. intros y [<- | []]. lra.
  - destruct (IH (Rmax x a)) as [Hin Hle]. split.
    + destruct Hin as [Heq | Hin].
      * rewrite <- Heq. unfold Rmax. destruct (Rle_dec x a); auto.
      * right. right. exact Hin.
    + intros y Hy.
      assert (Hm : Rmax x a <= fold_left Rmax l (Rmax x a)).
      { apply Hle. now left. }
      destruct Hy as [<- | [<- | Hy]].
      * pose proof (Rmax_l x a). lra.
      * pose proof (Rmax_r x a). lra.
      * apply Hle. now right.
Qed.

Lemma np_min_spec (a : list R) :
  a <> [] -> exists m, np_min a = Ok m /\ is_minimum a m.
Proof.
  destruct a as [| x l]; [congruence |]. intros _.
  exists (fold_left Rmin l x). split; [reflexivity |]. apply fold_Rmin_spec.
Qed.

Lemma np_max_spec (a : list R) :
  a <> [] -> exists M, np_max a = Ok M /\ is_maximum a M.
Proof.
  destruct a as [| x l]; [congruence |]. intros _.
  exists (fold_left Rmax l x). split; [reflexivity |]. apply fold_Rmax_spec.
Qed.

Lemma In_nonzero (arr : list R) (x : R) : In x (nonzero arr) <-> In x arr /\ x <> 0.
Proof.
  unfold nonzero. rewrite filter_In. split; intros [Hin H]; split; try exact Hin.
  - intros ->. rewrite Reqb'_true in H by reflexivity. discriminate H.
  - now rewrite Reqb'_false.
Qed.

(** ** Logarithmically spaced edges *)

Lemma np_log10_pos (x : R) : 0 < x -> np_log10 x = Finite (log10 x).
Proof. intros Hx. unfold np_log10, np_log. now rewrite Rltb'_true. Qed.

Lemma np_log10_nonpos (x : R) : x <= 0 -> np_log10 x = InfOrNaN.
Proof. intros Hx. unfold np_log10, np_log. now rewrite Rltb'_false. Qed.

Lemma Rpower10_log10 (x : R) : 0 < x -> Rpower 10 (log10 x) = x.
Proof.
  intros Hx. unfold Rpower, log10. pose proof ln10_pos.
  replace (ln x / ln 10 * ln 10) with (ln x) by (field; lra).
  now apply exp_ln.
Qed.

Lemma log10_mono (x y : R) : 0 < x -> x <= y -> log10 x <= log10 y.
Proof.
  intros Hx Hxy. unfold log10, Rdiv.
  apply Rmult_le_compat_r.
  - left. apply Rinv_0_lt_compat. apply ln10_pos.
  - now apply ln_le_mono.
Qed.

Lemma log10_strict (x y : R) : 0 < x -> x < y -> log10 x < log10 y.
Proof.
  intros Hx Hxy. unfold log10, Rdiv.
  apply Rmult_lt_compat_r.
  - apply Rinv_0_lt_compat. apply ln10_pos.
  - now apply ln_increasing.
Qed.

Lemma Rpower10_mono (a b : R) : a <= b -> Rpower 10 a <= Rpower 10 b.
Proof. intros Hab. apply Rle_Rpower; lra. Qed.

Lemma Rpower10_strict (a b : R) : a < b -> Rpower 10 a < Rpower 10 b.
Proof. intros Hab. apply Rpower_lt; lra. Qed.

Lemma np_linspace_eq (start stop : R) (num : nat) :
  np_linspace start stop num
  = map (fun i => INR i * linspace_step start stop num + start) (seq 0 num).
Proof.
  unfold np_linspace, linspace_step. destruct (1 <? num)%nat; reflexivity.
Qed.

Lemma linspace_step_nonneg (start stop : R) (num : nat) :
  start <= stop -> 0 <= linspace_step start stop num.
Proof.
  intros H. unfold linspace_step. destruct (1 <? num)%nat eqn:E; [| lra].
  apply Nat.ltb_lt in E. apply Rmult_le_pos; [lra |].
  left. apply Rinv_0_lt_compat. apply lt_0_INR. lia.
Qed.

Lemma linspace_step_pos (start stop : R) (num : nat) :
  start < stop -> 0 < linspace_step start stop num.
Proof.
  intros H. unfold linspace_step. destruct (1 <? num)%nat eqn:E; [| lra].
  apply Nat.ltb_lt in E. apply Rmult_lt_0_compat; [lra |].
  apply Rinv_0_lt_compat. apply lt_0_INR. lia.
Qed.

Lemma linspace_step_last (start stop : R) (num : nat) :
  (2 <= num)%nat -> INR (num - 1) * linspace_step start stop num + start = stop.
Proof.
  intros H. unfold linspace_step.
  replace (1 <? num)%nat with true by (symmetry; apply Nat.ltb_lt; lia).
  assert (0 < INR (num - 1)) by (apply lt_0_INR; lia).
  field. lra.
Qed.

Lemma log_edges_eq (lo hi : R) (num : nat) :
  map (Rpower 10) (np_linspace lo hi num) = log_edges lo hi num.
Proof. rewrite np_linspace_eq, map_map. reflexivity. Qed.

Lemma length_log_edges (lo hi : R) (num : nat) : length (log_edges lo hi num) = num.
Proof. unfold log_edges. now rewrite length_map, length_seq. Qed.

Lemma increasing_map_seq (f : nat -> R) (s n : nat) :
  (forall i, f i <= f (S i)) -> increasing (map f (seq s n)) = true.
Proof.
  intros Hf. revert s. induction n as [| n IH]; intros s; [reflexivity |].
  destruct n as [| n]; [reflexivity |].
  change (increasing (f s :: map f (seq (S s) (S n))) = true).
  specialize (IH (S s)). simpl in IH |- *.
  rewrite Rleb'_true by apply Hf. exact IH.
Qed.

Lemma log_edges_increasing (lo hi : R) (num : nat) :
  lo <= hi -> increasing (log_edges lo hi num) = true.
Proof.
  intros H. unfold log_edges. apply increasing_map_seq. intros i.
  apply Rpower10_mono. rewrite S_INR.
  pose proof (linspace_step_nonneg lo hi num H). nra.
Qed.

Lemma log_edges_first (lo hi : R) (num : nat) :
  log_edges lo hi (S num)
  = Rpower 10 lo
    :: map (fun i => Rpower 10 (INR i * linspace_step lo hi (S num) + lo)) (seq 1 num).
Proof.
  unfold log_edges. simpl seq. simpl map. f_equal. f_equal. simpl INR. ring.
Qed.

Lemma log_edges_last (lo hi : R) (num : nat) (d : R) :
  (2 <= num)%nat -> last (log_edges lo hi num) d = Rpower 10 hi.
Proof.
  intros H. unfold log_edges.
  pose proof (linspace_step_last lo hi num H) as Hlast.
  set (st := linspace_step lo hi num) in *.
  replace num with (S (num - 1)) by lia.
  rewrite seq_S, map_app. simpl map. rewrite last_last. simpl Nat.add.
  replace (S (num - 1) - 1)%nat with (num - 1)%nat in Hlast by lia.
  now rewrite Hlast.
Qed.

(** ** Counting into bins *)

Lemma increasing_cons (x y : R) (l : list R) :
  increasing (x :: y :: l) = true -> x <= y /\ increasing (y :: l) = true.
Proof.
  simpl. intros H. apply andb_prop in H as [Hxy Hl]. split; [| exact Hl].
  unfold Rleb' in Hxy. destruct (Rle_dec x y); [assumption | discriminate].
Qed.

Lemma last_cons_indep (x : R) (l : list R) (d d' : R) :
  last (x :: l) d = last (x :: l) d'.
Proof.
  revert x. induction l as [| y l IH]; intros x; [reflexivity |].
  change (last (y :: l) d = last (y :: l) d'). apply IH.
Qed.

Lemma increasing_le_last (x : R) (l : list R) (d : R) :
  increasing (x :: l) = true -> x <= last (x :: l) d.
Proof.
  revert x. induction l as [| y l IH]; intros x H.
  - simpl. lra.
  - apply increasing_cons in H as [Hxy Hl].
    change (x <= last (y :: l) d). specialize (IH y Hl). lra.
Qed.

Lemma bin_cases (e0 e1 L x : R) :
  e0 <= e1 -> e1 <= L ->
  (Nat.b2n (in_bin e0 e1 x) + Nat.b2n (in_last_bin e1 L x))%nat
  = Nat.b2n (in_last_bin e0 L x).
Proof.
  intros H01 H1L. unfold in_bin, in_last_bin. rdec.
Qed.

Lemma count_if_cons (p : R -> bool) (x : R) (a : list R) :
  count_if p (x :: a) = (Nat.b2n (p x) + count_if p a)%nat.
Proof. unfold count_if. simpl. destruct (p x); reflexivity. Qed.

Lemma count_split (a : list R) (e0 e1 L : R) :
  e0 <= e1 -> e1 <= L ->
  (count_if (in_bin e0 e1) a + count_if (in_last_bin e1 L) a)%nat
  = count_if (in_last_bin e0 L) a.
Proof.
  intros H01 H1L. induction a as [| x a IH]; [reflexivity |].
  rewrite !count_if_cons. rewrite <- IH, <- (bin_cases e0 e1 L x H01 H1L). lia.
Qed.

Lemma bin_counts_sum (a : list R) (e0 e1 : R) (rest : list R) :
  increasing (e0 :: e1 :: rest) = true ->
  np_sum (bin_counts a (e0 :: e1 :: rest))
  = count_if (in_last_bin e0 (last (e1 :: rest) e0)) a.
Proof.
  revert e0 e1. induction rest as [| e2 rest IH]; intros e0 e1 H.
  - simpl. lia.
  - apply increasing_cons in H as [H01 H1].
    change (bin_counts a (e0 :: e1 :: e2 :: rest))
      with (count_if (in_bin e0 e1) a :: bin_counts a (e1 :: e2 :: rest)).
    change (np_sum (count_if (in_bin e0 e1) a :: bin_counts a (e1 :: e2 :: rest)))
      with (count_if (in_bin e0 e1) a + np_sum (bin_counts a (e1 :: e2 :: rest)))%nat.
    rewrite (IH e1 e2 H1).
    change (last (e1 :: e2 :: rest) e0) with (last (e2 :: rest) e0).
    rewrite (last_cons_indep e2 rest e0 e1).
    apply count_split; [exact H01 |].
    change (last (e2 :: rest) e1) with (last (e1 :: e2 :: rest) e1).
    now apply increasing_le_last.
Qed.

Lemma length_bin_counts (a : list R) (edges : list R) :
  length (bin_counts a edges) = (length edges - 1)%nat.
Proof.
  induction edges as [| e0 [| e1 [| e2 rest]] IH]; try reflexivity.
  change (bin_counts a (e0 :: e1 :: e2 :: rest))
    with (count_if (in_bin e0 e1) a :: bin_counts a (e1 :: e2 :: rest)).
  simpl length in IH |- *. rewrite IH. lia.
Qed.

Lemma length_np_diff (edges : list R) :
  length (np_diff edges) = (length edges - 1)%nat.
Proof.
  induction edges as [| e0 [| e1 rest] IH]; try reflexivity.
  change (np_diff (e0 :: e1 :: rest)) with ((e1 - e0) :: np_diff (e1 :: rest)).
  simpl length in IH |- *. rewrite IH. lia.
Qed.

(** ** The default edges of a sample *)

Lemma nonzero_nonempty (arr : list R) : nonzero arr <> [] -> arr <> [].
Proof. intros H ->. apply H. reflexivity. Qed.

Lemma np_min_nonzero (arr : list R) :
  nonzero arr <> [] ->
  np_min (nonzero arr) = Ok (min_nonzero arr)
  /\ is_minimum (nonzero arr) (min_nonzero arr).
Proof.
  intros H. unfold min_nonzero, np_min, is_minimum.
  destruct (nonzero arr) as [| x l]; [congruence |].
  split; [reflexivity |]. apply fold_Rmin_spec.
Qed.

Lemma np_max_element (arr : list R) :
  arr <> [] ->
  np_max arr = Ok (max_element arr) /\ is_maximum arr (max_element arr).
Proof.
  intros H. unfold max_element, np_max, is_maximum.
  destruct arr as [| x l]; [congruence |].
  split; [reflexivity |]. apply fold_Rmax_spec.
Qed.

Lemma min_nonzero_in (arr : list R) :
  nonzero arr <> [] -> In (min_nonzero arr) arr /\ min_nonzero arr <> 0.
Proof.
  intros H. destruct (np_min_nonzero arr H) as [_ [Hin _]].
  now apply In_nonzero.
Qed.

Lemma min_nonzero_pos (arr : list R) :
  Forall (fun x => 0 <= x) arr -> nonzero arr <> [] -> 0 < min_nonzero arr.
Proof.
  intros Hpos H. destruct (min_nonzero_in arr H) as [Hin Hne].
  rewrite Forall_forall in Hpos. specialize (Hpos _ Hin). lra.
Qed.

Lemma min_le_max (arr : list R) :
  nonzero arr <> [] -> min_nonzero arr <= max_element arr.
Proof.
  intros H. destruct (min_nonzero_in arr H) as [Hin _].
  destruct (np_max_element arr (nonzero_nonempty arr H)) as [_ [_ Hmax]].
  now apply Hmax.
Qed.

Lemma logspace_sturges (lo hi : npfloat) (n : nat) :
  (1 <= n)%nat ->
  np_logspace lo hi (np_add (np_ceil (np_log2 (INR n))) 1)
  = match lo, hi with
    | Finite a, Finite b => Ok (log_edges a b (Nat.log2_up n + 1))
    | _, _ => NonFinite
    end.
Proof.
  intros Hn. unfold np_logspace. rewrite sturges by exact Hn.
  simpl py_int. rewrite truncZ_IZR by lia. simpl bind.
  replace (Z.of_nat (Nat.log2_up n + 1) <? 0)%Z with false
    by (symmetry; apply Z.ltb_ge; lia).
  rewrite Nat2Z.id.
  destruct lo as [a |]; [| reflexivity].
  destruct hi as [b |]; [| reflexivity].
  now rewrite log_edges_eq.
Qed.

Lemma logbins_nonzero (arr : list R) :
  nonzero arr <> [] ->
  _logbins arr
  = np_logspace (np_log10 (min_nonzero arr)) (np_log10 (max_element arr))
                (np_add (np_ceil (np_log2 (INR (length arr)))) 1).
Proof.
  intros H. unfold _logbins.
  destruct (np_min_nonzero arr H) as [-> _].
  destruct (np_max_element arr (nonzero_nonempty arr H)) as [-> _].
  reflexivity.
Qed.

Lemma length_pos (arr : list R) : arr <> [] -> (1 <= length arr)%nat.
Proof. destruct arr; [congruence | simpl; lia]. Qed.

Lemma logbins_default (arr : list R) :
  Forall (fun x => 0 <= x) arr -> nonzero arr <> [] ->
  _logbins arr = Ok (default_edges arr).
Proof.
  intros Hpos H.
  pose proof (min_nonzero_pos arr Hpos H) as Hm.
  pose proof (min_le_max arr H) as HM.
  rewrite logbins_nonzero by exact H.
  rewrite logspace_sturges by (apply length_pos; now apply nonzero_nonempty).
  rewrite !np_log10_pos by lra. reflexivity.
Qed.

Lemma logbins_negative (arr : list R) :
  nonzero arr <> [] -> min_nonzero arr < 0 -> _logbins arr = NonFinite.
Proof.
  intros H Hm.
  rewrite logbins_nonzero by exact H.
  rewrite logspace_sturges by (apply length_pos; now apply nonzero_nonempty).
  rewrite np_log10_nonpos by lra. reflexivity.
Qed.

Lemma logbins_all_zero (arr : list R) :
  nonzero arr = [] ->
  _logbins arr = Raise (ValueError (zero_size_msg "minimum")).
Proof. intros H. unfold _logbins. rewrite H. reflexivity. Qed.

Lemma default_edges_increasing (arr : list R) :
  Forall (fun x => 0 <= x) arr -> nonzero arr <> [] ->
  increasing (default_edges arr) = true.
Proof.
  intros Hpos H. apply log_edges_increasing.
  apply log10_mono; [now apply min_nonzero_pos | now apply min_le_max].
Qed.

Lemma histogram_default (arr : list R) (kw : kwargs) :
  histogram arr None kw
  = (bins <- _logbins arr ;;
     h <- np_histogram arr bins (normalize kw) ;;
     Ok (h, bins)).
Proof. reflexivity. Qed.

Lemma histogram_default_counts (arr : list R) (kw : kwargs) :
  Forall (fun x => 0 <= x) arr -> nonzero arr <> [] -> normalize kw = false ->
  histogram arr None kw
  = Ok (Counts (bin_counts arr (default_edges arr)), default_edges arr).
Proof.
  intros Hpos H Hkw. rewrite histogram_default, logbins_default by assumption.
  simpl bind. unfold np_histogram.
  rewrite default_edges_increasing by assumption. rewrite Hkw. reflexivity.
Qed.

Lemma in_last_bin_nonzero (arr : list R) (x : R) :
  Forall (fun x => 0 <= x) arr -> nonzero arr <> [] -> In x arr ->
  in_last_bin (min_nonzero arr) (max_element arr) x = negb (Reqb' x 0).
Proof.
  intros Hpos H Hx.
  pose proof (min_nonzero_pos arr Hpos H) as Hm.
  destruct (np_min_nonzero arr H) as [_ [_ Hmin]].
  destruct (np_max_element arr (nonzero_nonempty arr H)) as [_ [_ Hmax]].
  specialize (Hmax x Hx). unfold in_last_bin.
  destruct (Req_dec_T x 0) as [-> | Hne].
  - rewrite Reqb'_true by reflexivity. rewrite Rleb'_false by exact Hm. reflexivity.
  - rewrite Reqb'_false by exact Hne.
    assert (Hin : In x (nonzero arr)) by (apply In_nonzero; now split).
    specialize (Hmin x Hin).
    now rewrite !Rleb'_true.
Qed.

Lemma default_edges_ends (arr : list R) :
  Forall (fun x => 0 <= x) arr -> nonzero arr <> [] -> (2 <= length arr)%nat ->
  exists e1 rest,
    default_edges arr = min_nonzero arr :: e1 :: rest
    /\ last (e1 :: rest) (min_nonzero arr) = max_element arr.
Proof.
  intros Hpos H Hlen.
  pose proof (min_nonzero_pos arr Hpos H) as Hm.
  pose proof (min_le_max arr H) as HM.
  assert (Hk : (2 <= Nat.log2_up (length arr) + 1)%nat).
  { pose proof (Nat.log2_up_pos (length arr)). lia. }
  pose proof (log_edges_last (log10 (min_nonzero arr)) (log10 (max_element arr))
                _ (min_nonzero arr) Hk) as Hlast.
  pose proof (length_log_edges (log10 (min_nonzero arr)) (log10 (max_element arr))
                (Nat.log2_up (length arr) + 1)) as Hlen'.
  fold (default_edges arr) in Hlast, Hlen'.
  assert (Hfirst : hd 0 (default_edges arr) = min_nonzero arr).
  { unfold default_edges.
    replace (Nat.log2_up (length arr) + 1)%nat with (S (Nat.log2_up (length arr))) by lia.
    rewrite log_edges_first. simpl. now apply Rpower10_log10. }
  destruct (default_edges arr) as [| e0 [| e1 rest]]; simpl in Hlen'; try lia.
  simpl in Hfirst. subst e0. exists e1, rest. split; [reflexivity |].
  change (last (min_nonzero arr :: e1 :: rest) (min_nonzero arr))
    with (last (e1 :: rest) (min_nonzero arr)) in Hlast.
  rewrite Hlast. apply Rpower10_log10. lra.
Qed.

Lemma default_counts_sum (arr : list R) :
  Forall (fun x => 0 <= x) arr -> nonzero arr <> [] -> (2 <= length arr)%nat ->
  np_sum (bin_counts arr (default_edges arr)) = length (nonzero arr).
Proof.
  intros Hpos H Hlen.
  pose proof (default_edges_increasing arr Hpos H) as Hinc.
  destruct (default_edges_ends arr Hpos H Hlen) as (e1 & rest & Heq & Hlast).
  rewrite Heq in Hinc |- *.
  rewrite bin_counts_sum by exact Hinc. rewrite Hlast.
  unfold count_if, nonzero. f_equal.
  apply filter_ext_in. intros x Hx. now apply in_last_bin_nonzero.
Qed.

(** ** Densities *)

Lemma np_diff_map_seq_pos (f : nat -> R) (s n : nat) :
  (forall i, f i < f (S i)) ->
  Forall (fun w => 0 < w) (np_diff (map f (seq s n))).
Proof.
  intros Hf. revert s. induction n as [| n IH]; intros s; [constructor |].
  destruct n as [| n]; [constructor |].
  change (Forall (fun w => 0 < w)
            ((f (S s) - f s) :: np_diff (map f (seq (S s) (S n))))).
  constructor; [specialize (Hf s); lra | apply IH].
Qed.

Lemma default_widths_pos (arr : list R) :
  Forall (fun x => 0 <= x) arr -> nonzero arr <> [] ->
  min_nonzero arr < max_element arr ->
  Forall (fun w => 0 < w) (np_diff (default_edges arr)).
Proof.
  intros Hpos H Hlt. apply np_diff_map_seq_pos. intros i.
  apply Rpower10_strict. rewrite S_INR.
  assert (Hs : log10 (min_nonzero arr) < log10 (max_element arr)).
  { apply log10_strict; [now apply min_nonzero_pos | exact Hlt]. }
  pose proof (linspace_step_pos _ _ (Nat.log2_up (length arr) + 1) Hs). nra.
Qed.

Lemma two_distinct (arr : list R) (a b : R) :
  In a arr -> In b arr -> a <> b -> (2 <= length arr)%nat.
Proof.
  destruct arr as [| x [| y l]]; simpl; intros Ha Hb Hab; try lia.
  destruct Ha as [Ha | []]. destruct Hb as [Hb | []]. congruence.
Qed.

Lemma spread_length (arr : list R) :
  nonzero arr <> [] -> min_nonzero arr < max_element arr ->
  (2 <= length arr)%nat.
Proof.
  intros H Hlt. destruct (min_nonzero_in arr H) as [Hin _].
  destruct (np_max_element arr (nonzero_nonempty arr H)) as [_ [HM _]].
  apply (two_distinct arr _ _ Hin HM). lra.
Qed.

Lemma histogram_default_density (arr : list R) (kw : kwargs) :
  Forall (fun x => 0 <= x) arr -> nonzero arr <> [] ->
  min_nonzero arr < max_element arr -> normalize kw = true ->
  histogram arr None kw
  = Ok (Densities
          (map (fun cw => INR (fst cw) / (INR (length (nonzero arr)) * snd cw))
               (combine (bin_counts arr (default_edges arr))
                        (np_diff (default_edges arr)))),
        default_edges arr).
Proof.
  intros Hpos H Hlt Hkw.
  pose proof (spread_length arr H Hlt) as Hlen.
  pose proof (default_widths_pos arr Hpos H Hlt) as Hw.
  assert (HS : INR (length (nonzero arr)) <> 0).
  { apply not_0_INR. destruct (nonzero arr); [congruence | simpl; lia]. }
  rewrite histogram_default, logbins_default by assumption.
  simpl bind. unfold np_histogram.
  rewrite default_edges_increasing by assumption. rewrite Hkw. simpl negb. cbv iota.
  rewrite default_counts_sum by assumption.
  rewrite (mapM_Ok _ (fun cw => INR (fst cw) / (INR (length (nonzero arr)) * snd cw))).
  - reflexivity.
  - apply Forall_forall. intros [c w] Hin. simpl fst. simpl snd.
    apply in_combine_r in Hin. rewrite Forall_forall in Hw. specialize (Hw w Hin).
    rewrite np_div_nonzero by lra. simpl bind.
    rewrite np_div_nonzero by exact HS. f_equal. field. split; lra.
Qed.

Lemma Exists_pos_nonzero (arr : list R) :
  Exists (fun x => 0 < x) arr -> nonzero arr <> [].
Proof.
  intros H. apply Exists_exists in H as (x & Hin & Hx).
  assert (Hnz : In x (nonzero arr)) by (apply In_nonzero; split; [exact Hin | lra]).
  intros E. rewrite E in Hnz. destruct Hnz.
Qed.

Lemma nonzero_all_pos (arr : list R) :
  Forall (fun x => 0 < x) arr -> nonzero arr = arr.
Proof.
  induction 1 as [| x l Hx _ IH]; [reflexivity |].
  unfold nonzero in *. simpl. rewrite Reqb'_false by lra. simpl. now rewrite IH.
Qed.

Lemma combine_fst (n : list nat) (db : list R) :
  length n = length db -> map fst (combine n db) = n.
Proof.
  revert db. induction n as [| c n IH]; intros [| w db] Hlen; simpl in *;
    try reflexivity; try discriminate.
  f_equal. apply IH. lia.
Qed.

Lemma np_sum_zero (l : list (nat * R)) :
  (forall cw, In cw l -> fst cw = 0%nat) -> np_sum (map fst l) = 0%nat.
Proof.
  induction l as [| cw l IH]; intros H; [reflexivity |].
  simpl. rewrite (H cw) by now left. apply IH. intros cw' Hin. apply H. now right.
Qed.

Lemma zero_one_two_nonzero : nonzero zero_one_two = [1; 2].
Proof.
  unfold nonzero, zero_one_two. simpl.
  rewrite Reqb'_true by reflexivity. rewrite !Reqb'_false by lra. reflexivity.
Qed.

Lemma zero_one_two_facts :
  Forall (fun x => 0 <= x) zero_one_two
  /\ nonzero zero_one_two <> []
  /\ min_nonzero zero_one_two < max_element zero_one_two.
Proof.
  assert (H : nonzero zero_one_two <> []) by (rewrite zero_one_two_nonzero; discriminate).
  split; [| split; [exact H |]].
  - unfold zero_one_two. repeat constructor; lra.
  - destruct (np_min_nonzero _ H) as [_ [_ Hmin]].
    destruct (np_max_element _ (nonzero_nonempty _ H)) as [_ [_ Hmax]].
    assert (H1 : min_nonzero zero_one_two <= 1).
    { apply Hmin. rewrite zero_one_two_nonzero. now left. }
    assert (H2 : 2 <= max_element zero_one_two).
    { apply Hmax. unfold zero_one_two. simpl. auto. }
    lra.
Qed.

Lemma density_on : normalize [(density, PyBool true)] = true.
Proof. reflexivity. Qed.

Lemma density_off : normalize [] = false.
Proof. reflexivity. Qed.

(** ** What the default bins can count

    The lemmas of this section use of the edges only that they increase
    and are positive, not where the first and the last of them fall. *)

Lemma count_if_le_mono (p q : R -> bool) (a : list R) :
  (forall x, p x = true -> q x = true) -> (count_if p a <= count_if q a)%nat.
Proof.
  intros H. induction a as [| x a IH]; [apply Nat.le_refl |].
  rewrite !count_if_cons. specialize (H x).
  destruct (p x); simpl.
  - rewrite H by reflexivity. simpl. lia.
  - lia.
Qed.

Lemma positive_edges_count_nonzero (a edges : list R) :
  increasing edges = true -> Forall (fun e => 0 < e) edges ->
  (np_sum (bin_counts a edges) <= length (nonzero a))%nat.
Proof.
  intros Hinc Hpos.
  destruct edges as [| e0 [| e1 rest]]; [simpl; lia | simpl; lia |].
  rewrite bin_counts_sum by exact Hinc.
  inversion Hpos as [| ? ? He0 _]; subst.
  apply (count_if_le_mono _ (fun x => negb (Reqb' x 0))).
  intros x Hx. unfold in_last_bin in Hx. apply andb_prop in Hx as [Hx _].
  unfold Rleb' in Hx. destruct (Rle_dec e0 x); [| discriminate Hx].
  rewrite Reqb'_false by lra. reflexivity.
Qed.

Lemma default_edges_positive (arr : list R) :
  Forall (fun e => 0 < e) (default_edges arr).
Proof.
  unfold default_edges, log_edges. apply Forall_map_iff.
  apply Forall_forall. intros i _. apply Rpower_pos.
Qed.

Lemma default_counts_nonzero (arr : list R) :
  Forall (fun x => 0 <= x) arr -> nonzero arr <> [] ->
  (np_sum (bin_counts arr (default_edges arr)) <= length (nonzero arr))%nat.
Proof.
  intros Hpos Hnz. apply positive_edges_count_nonzero.
  - now apply default_edges_increasing.
  - apply default_edges_positive.
Qed.



Lemma Ok_Counts_inj (n n' : list nat) (e e' : list R) :
  @Ok (hist * list R) (Counts n, e) = Ok (Counts n', e') -> n = n' /\ e = e'.
Proof. intros H. injection H as -> ->. now split. Qed.

(** ** Normalisation *)

Lemma Ok_Densities_inj (d d' : list R) (e e' : list R) :
  @Ok (hist * list R) (Densities d, e) = Ok (Densities d', e') -> d = d' /\ e = e'.
Proof. intros H. injection H as -> ->. now split. Qed.

(** C3, as stated, fails: on the sample [0, 1, 2] with [density=True] the
    counts are not divided by 3 times the bin width. *)
Lemma density_counterexample :
  zero_one_two <> []
  /\ forall edges,
       histogram zero_one_two None [(density, PyBool true)]
       <> Ok (Densities
                (map (fun cw => INR (fst cw) / (INR (length zero_one_two) * snd cw))
                     (combine (bin_counts zero_one_two edges) (np_diff edges))),
              edges).
Proof.
  split; [discriminate |]. intros edges Heq.
  destruct zero_one_two_facts as (Hpos & Hnz & Hlt).
  pose proof (spread_length _ Hnz Hlt) as Hlen.
  rewrite (histogram_default_density _ _ Hpos Hnz Hlt density_on) in Heq.
  apply Ok_Densities_inj in Heq as [Hd He]. subst edges.
  pose proof (default_widths_pos _ Hpos Hnz Hlt) as Hw.
  pose proof (default_counts_sum _ Hpos Hnz Hlen) as Hsum.
  rewrite zero_one_two_nonzero in Hd, Hsum. simpl length in Hd, Hsum.
  assert (Hz : forall cw,
             In cw (combine (bin_counts zero_one_two (default_edges zero_one_two))
                            (np_diff (default_edges zero_one_two))) ->
             fst cw = 0%nat).
  { intros [c w] Hin. pose proof (ext_in_map Hd _ Hin) as Hc.
    cbv beta in Hc. simpl fst in *. simpl snd in *.
    apply in_combine_r in Hin. rewrite Forall_forall in Hw. specialize (Hw w Hin).
    destruct c as [| c]; [reflexivity | exfalso].
    assert (Hc0 : 0 < INR (S c)) by (apply lt_0_INR; lia).
    set (x := INR (S c)) in *.
    replace (INR 2) with 2 in Hc by (simpl; ring).
    replace (INR 3) with 3 in Hc by (simpl; ring).
    assert (H2 : x / (2 * w) * (6 * w) = 3 * x) by (field; lra).
    assert (H3 : x / (3 * w) * (6 * w) = 2 * x) by (field; lra).
    rewrite Hc in H2. lra. }
  apply np_sum_zero in Hz.
  rewrite combine_fst in Hz by now rewrite length_bin_counts, length_np_diff.
  lia.
Qed.

(** C3, amended: for a sample without negative elements and with a
    positive one, [histogram] without [density] returns the raw integer
    counts of the sample over the default edges; with [density], when the
    bins have positive width and at least one element is counted, it
    returns over the same edges each bin's count divided by (total of the
    counts * bin width).  The total is the number of elements counted: never
    more than the number of non-zero elements, hence not the sample size
    when the sample contains a zero. *)
Theorem histogram_normalisation (arr : list R) (kw_raw kw_density : kwargs) :
  Forall (fun x => 0 <= x) arr ->
  Exists (fun x => 0 < x) arr ->
  normalize kw_raw = false ->
  normalize kw_density = true ->
  exists counts edges,
    histogram arr None kw_raw = Ok (Counts counts, edges)
    /\ counts = bin_counts arr edges
    /\ (np_sum counts <= length (nonzero arr))%nat
    /\ (Forall (fun w => 0 < w) (np_diff edges) ->
        np_sum counts <> 0%nat ->
        histogram arr None kw_density
        = Ok (Densities
                (map (fun cw => INR (fst cw) / (INR (np_sum counts) * snd cw))
                     (combine counts (np_diff edges))),
              edges)).
Proof.
  intros Hpos Hex Hraw Hden.
  pose proof (Exists_pos_nonzero arr Hex) as Hnz.
  exists (bin_counts arr (default_edges arr)), (default_edges arr).
  split; [now apply histogram_default_counts |].
  split; [reflexivity |].
  split; [now apply default_counts_nonzero |].
  intros Hw HS.
  rewrite histogram_default, logbins_default by assumption.
  simpl bind. unfold np_histogram.
  rewrite default_edges_increasing by assumption. rewrite Hden. simpl negb. cbv iota.
  set (counts := bin_counts arr (default_edges arr)) in *.
  rewrite (mapM_Ok _ (fun cw => INR (fst cw) / (INR (np_sum counts) * snd cw))).
  - reflexivity.
  - apply Forall_forall. intros [c w] Hin. simpl fst. simpl snd.
    apply in_combine_r in Hin. rewrite Forall_forall in Hw. specialize (Hw w Hin).
    assert (HS' : INR (np_sum counts) <> 0) by now apply not_0_INR.
    rewrite np_div_nonzero by lra. simpl bind.
    rewrite np_div_nonzero by exact HS'. f_equal. field. split; lra.
Qed.

Lemma histogram_normalisation_witness :
  let arr := [1; 2; 4] in
  exists counts edges,
    histogram arr None [] = Ok (Counts counts, edges)
    /\ counts = bin_counts arr edges
    /\ (np_sum counts <= length (nonzero arr))%nat
    /\ histogram arr None [(density, PyBool true)]
       = Ok (Densities
               (map (fun cw => INR (fst cw) / (INR (np_sum counts) * snd cw))
                    (combine counts (np_diff edges))),
             edges).
Proof.
  assert (Hpos : Forall (fun x => 0 <= x) [1; 2; 4]) by (repeat constructor; lra).
  assert (Hex : Exists (fun x => 0 < x) [1; 2; 4]) by (apply Exists_cons_hd; lra).
  destruct (histogram_normalisation [1; 2; 4] [] [(density, PyBool true)]
              Hpos Hex eq_refl eq_refl)
    as (counts & edges & Hraw & Hcounts & Hle & Hdensity).
  intros arr. exists counts, edges.
  split; [exact Hraw |]. split; [exact Hcounts |]. split; [exact Hle |].
  pose proof (Exists_pos_nonzero _ Hex) as Hnz.
  rewrite (histogram_default_counts _ _ Hpos Hnz density_off) in Hraw.
  apply Ok_Counts_inj in Hraw as [Hc He].
  assert (Hlt : min_nonzero [1; 2; 4] < max_element [1; 2; 4]).
  { destruct (np_min_nonzero _ Hnz) as [_ [_ Hmin]].
    destruct (np_max_element _ (nonzero_nonempty _ Hnz)) as [_ [_ Hmax]].
    assert (H1 : min_nonzero [1; 2; 4] <= 1).
    { apply Hmin. apply In_nonzero. split; [now left | lra]. }
    assert (H4 : 4 <= max_element [1; 2; 4]).
    { apply Hmax. simpl. auto. }
    lra. }
  apply Hdensity.
  - rewrite <- He. now apply default_widths_pos.
  - rewrite <- Hc.
    rewrite (default_counts_sum _ Hpos Hnz (spread_length _ Hnz Hlt)).
    rewrite nonzero_all_pos by (repeat constructor; lra).
    simpl. discriminate.
Defined.

(** ** Sum of the raw counts *)




(** ** Caller-supplied edges *)

(** C10: an array of two or more edges makes [not bins] fail, whatever the
    sample and the options are. *)
Theorem histogram_array_bins (arr bins : list R) (kw : kwargs) :
  (2 <= length bins)%nat ->
  histogram arr (Some bins) kw = Raise (ValueError ambiguous_msg).
Proof.
  intros H. destruct bins as [| e0 [| e1 rest]]; simpl in H; try lia.
  reflexivity.
Qed.

Lemma histogram_array_bins_witness :
  histogram [1; 2; 4] (Some [1; 10; 100]) [] = Raise (ValueError ambiguous_msg).
Proof.
  apply (histogram_array_bins [1; 2; 4] [1; 10; 100] []). simpl. lia.
Defined.

(** ** Failure of [histogram] on the default path *)

Lemma nonzero_nil_iff (arr : list R) :
  nonzero arr = [] <-> Forall (fun x => x = 0) arr.
Proof.
  split.
  - intros H. apply Forall_forall. intros x Hx.
    destruct (Req_dec_T x 0) as [E | E]; [exact E | exfalso].
    assert (Hin : In x (nonzero arr)) by (apply In_nonzero; now split).
    rewrite H in Hin. destruct Hin.
  - intros H. destruct (nonzero arr) as [| x l] eqn:E; [reflexivity | exfalso].
    assert (Hin : In x (nonzero arr)) by (rewrite E; now left).
    apply In_nonzero in Hin as [Hin Hne].
    rewrite Forall_forall in H. now apply Hne, H.
Qed.

Lemma np_histogram_no_raise (a bins : list R) (d : bool) :
  increasing bins = true -> no_raise (np_histogram a bins d).
Proof.
  intros H. unfold no_raise, np_histogram. rewrite H. simpl negb. cbv iota.
  destruct d; never_tac.
Qed.

Lemma positive_minimum_nonneg (arr : list R) :
  nonzero arr <> [] -> 0 < min_nonzero arr -> Forall (fun x => 0 <= x) arr.
Proof.
  intros H Hm. destruct (np_min_nonzero arr H) as [_ [_ Hmin]].
  apply Forall_forall. intros x Hx.
  destruct (Req_dec_T x 0) as [-> | Hne]; [lra |].
  assert (Hin : In x (nonzero arr)) by (apply In_nonzero; now split).
  specialize (Hmin x Hin). lra.
Qed.

Lemma histogram_default_no_raise (arr : list R) (kw : kwargs) :
  nonzero arr <> [] -> no_raise (histogram arr None kw).
Proof.
  intros H. rewrite histogram_default.
  destruct (min_nonzero_in arr H) as [_ Hne].
  destruct (Rlt_dec (min_nonzero arr) 0) as [Hneg | Hnn].
  - rewrite logbins_negative by assumption. simpl. apply never_NonFinite.
  - assert (Hm : 0 < min_nonzero arr) by lra.
    pose proof (positive_minimum_nonneg arr H Hm) as Hpos.
    rewrite logbins_default by assumption. simpl bind.
    apply never_bind; [| intros h; apply never_Ok].
    apply np_histogram_no_raise. now apply default_edges_increasing.
Qed.

(** C4, as stated, fails: a sample of negative numbers has no strictly
    positive element, and [histogram] raises nothing on it. *)
Lemma negative_sample_counterexample :
  Forall (fun x => ~ 0 < x) [-1; -2]
  /\ histogram [-1; -2] None [] = NonFinite
  /\ forall e, histogram [-1; -2] None [] <> Raise e.
Proof.
  assert (Hin : In (-1) (nonzero [-1; -2])).
  { apply In_nonzero. split; [now left | lra]. }
  assert (Hnz : nonzero [-1; -2] <> []).
  { intros E. rewrite E in Hin. destruct Hin. }
  assert (Hm : min_nonzero [-1; -2] < 0).
  { destruct (np_min_nonzero _ Hnz) as [_ [_ Hmin]]. specialize (Hmin _ Hin). lra. }
  assert (Heq : histogram [-1; -2] None [] = NonFinite).
  { rewrite histogram_default, logbins_negative by assumption. reflexivity. }
  split; [| split].
  - repeat constructor; lra.
  - exact Heq.
  - intros e. rewrite Heq. discriminate.
Qed.

(** C4, amended: with default bins [histogram] fails exactly when the
    sample has no non-zero element, that is when it is empty or all zeros,
    and the error is the same in both cases (the [ValueError] of the
    minimum of an empty selection); a sample with a negative element
    raises nothing. *)
Theorem histogram_fails_iff_no_nonzero (arr : list R) (kw : kwargs) :
  ((exists e, histogram arr None kw = Raise e) <-> Forall (fun x => x = 0) arr)
  /\ (forall e, histogram arr None kw = Raise e ->
                e = ValueError (zero_size_msg "minimum")).
Proof.
  assert (Hzero : nonzero arr = [] ->
                  histogram arr None kw = Raise (ValueError (zero_size_msg "minimum"))).
  { intros E. rewrite histogram_default, logbins_all_zero by exact E. reflexivity. }
  assert (Hnz : forall e, histogram arr None kw = Raise e -> nonzero arr = []).
  { intros e He. destruct (nonzero arr) as [| x l] eqn:E; [reflexivity | exfalso].
    apply (histogram_default_no_raise arr kw) with (e := e).
    - rewrite E. discriminate.
    - exact I.
    - exact He. }
  split; [split |].
  - intros [e He]. apply nonzero_nil_iff. now apply (Hnz e).
  - intros H. eexists. apply Hzero. now apply nonzero_nil_iff.
  - intros e He. rewrite (Hzero (Hnz e He)) in He. now injection He as <-.
Qed.

(** ** The default edges *)

Lemma spec_numBins_eq (n : nat) :
  (1 <= n)%nat -> spec_numBins n = (Nat.log2_up n + 1)%nat.
Proof.
  intros Hn. unfold spec_numBins. rewrite ceil_log2 by exact Hn.
  now rewrite Nat2Z.id.
Qed.

Lemma spec_edges_eq (numBins : nat) (arrMin arrMax : R) :
  spec_edges numBins arrMin arrMax
  = log_edges (log10 arrMin) (log10 arrMax) numBins.
Proof.
  unfold spec_edges, log_edges. apply map_ext_in. intros i Hi.
  apply in_seq in Hi. f_equal. unfold linspace_step.
  destruct (1 <? numBins)%nat eqn:E.
  - ring.
  - apply Nat.ltb_ge in E. assert (i = 0%nat) by lia. subst i. simpl INR. ring.
Qed.

Lemma positives_nonneg (arr : list R) :
  Forall (fun x => 0 <= x) arr -> positives arr = nonzero arr.
Proof.
  intros H. unfold positives, nonzero. apply filter_ext_in. intros x Hx.
  rewrite Forall_forall in H. specialize (H x Hx).
  destruct (Req_dec_T x 0) as [-> | Hne].
  - rewrite Reqb'_true by reflexivity. now rewrite Rltb'_false by lra.
  - rewrite Reqb'_false by exact Hne. now rewrite Rltb'_true by lra.
Qed.

(** C5, as stated, fails: in [-1, 2, 3] the least strictly positive element
    is 2 and the greatest element is 3, but the edges are not the three
    points between [log10 2] and [log10 3]: they are not finite. *)
Lemma negative_minimum_counterexample :
  is_minimum (positives [-1; 2; 3]) 2
  /\ is_maximum [-1; 2; 3] 3
  /\ _logbins [-1; 2; 3] = NonFinite
  /\ _logbins [-1; 2; 3] <> Ok (spec_edges (spec_numBins 3) 2 3)
  /\ histogram [-1; 2; 3] None [] = NonFinite.
Proof.
  assert (Hin : In (-1) (nonzero [-1; 2; 3])).
  { apply In_nonzero. split; [now left | lra]. }
  assert (Hnz : nonzero [-1; 2; 3] <> []).
  { intros E. rewrite E in Hin. destruct Hin. }
  assert (Hm : min_nonzero [-1; 2; 3] < 0).
  { destruct (np_min_nonzero _ Hnz) as [_ [_ Hmin]]. specialize (Hmin _ Hin). lra. }
  assert (Hlog : _logbins [-1; 2; 3] = NonFinite) by now apply logbins_negative.
  assert (Hp : positives [-1; 2; 3] = [2; 3]).
  { unfold positives. simpl. rewrite Rltb'_false by lra.
    now rewrite !Rltb'_true by lra. }
  split; [| split; [| split; [| split]]].
  - rewrite Hp. split; [now left |].
    intros y [<- | [<- | []]]; lra.
  - split; [simpl; auto |].
    intros y [<- | [<- | [<- | []]]]; lra.
  - exact Hlog.
  - rewrite Hlog. discriminate.
  - rewrite histogram_default, Hlog. reflexivity.
Qed.

(** C5, amended: for a sample without negative elements and with a positive
    one, the default edges are [ceil(log2(n)) + 1] points evenly spaced in
    log10 between [log10(arrMin)] and [log10(arrMax)], with [arrMin] the
    least strictly positive element (the least non-zero element, which is
    what the code takes) and [arrMax] the greatest element; they give one
    bin fewer than there are points. *)
Theorem default_edges_log_spaced (arr : list R) :
  Forall (fun x => 0 <= x) arr ->
  Exists (fun x => 0 < x) arr ->
  let numBins := spec_numBins (length arr) in
  exists arrMin arrMax,
    is_minimum (positives arr) arrMin
    /\ is_minimum (nonzero arr) arrMin
    /\ is_maximum arr arrMax
    /\ numBins = (Nat.log2_up (length arr) + 1)%nat
    /\ _logbins arr = Ok (spec_edges numBins arrMin arrMax)
    /\ length (spec_edges numBins arrMin arrMax) = numBins
    /\ forall kw, normalize kw = false ->
         exists counts,
           histogram arr None kw = Ok (Counts counts, spec_edges numBins arrMin arrMax)
           /\ length counts = (numBins - 1)%nat.
Proof.
  intros Hpos Hex numBins.
  pose proof (Exists_pos_nonzero arr Hex) as Hnz.
  assert (HnB : numBins = (Nat.log2_up (length arr) + 1)%nat).
  { apply spec_numBins_eq. apply length_pos. now apply nonzero_nonempty. }
  destruct (np_min_nonzero arr Hnz) as [_ Hmin].
  destruct (np_max_element arr (nonzero_nonempty arr Hnz)) as [_ Hmax].
  assert (Hedges : spec_edges numBins (min_nonzero arr) (max_element arr)
                   = default_edges arr).
  { rewrite spec_edges_eq, HnB. reflexivity. }
  exists (min_nonzero arr), (max_element arr).
  rewrite Hedges.
  repeat split; try (apply Hmin); try (apply Hmax); try exact HnB.
  - rewrite positives_nonneg by exact Hpos. apply Hmin.
  - rewrite positives_nonneg by exact Hpos. apply Hmin.
  - now apply logbins_default.
  - unfold default_edges. rewrite length_log_edges. now rewrite HnB.
  - intros kw Hkw. exists (bin_counts arr (default_edges arr)). split.
    + now apply histogram_default_counts.
    + rewrite length_bin_counts. unfold default_edges.
      rewrite length_log_edges. now rewrite HnB.
Qed.

Lemma default_edges_log_spaced_witness :
  let numBins := spec_numBins (length [1; 2; 4]) in
  exists arrMin arrMax,
    is_minimum (positives [1; 2; 4]) arrMin
    /\ is_minimum (nonzero [1; 2; 4]) arrMin
    /\ is_maximum [1; 2; 4] arrMax
    /\ numBins = (Nat.log2_up (length [1; 2; 4]) + 1)%nat
    /\ _logbins [1; 2; 4] = Ok (spec_edges numBins arrMin arrMax)
    /\ length (spec_edges numBins arrMin arrMax) = numBins
    /\ forall kw, normalize kw = false ->
         exists counts,
           histogram [1; 2; 4] None kw
           = Ok (Counts counts, spec_edges numBins arrMin arrMax)
           /\ length counts = (numBins - 1)%nat.
Proof.
  apply (default_edges_log_spaced [1; 2; 4]).
  - repeat constructor; lra.
  - apply Exists_cons_hd. lra.
Defined.

(** * Further properties of the code *)

(** ** Sampler and distribution function *)

Lemma Rpower_unroot (t b : R) : 0 < t -> b <> 0 -> Rpower (Rpower t (1 / b)) b = t.
Proof.
  intros Ht Hb. rewrite Rpower_mult.
  replace (1 / b * b) with 1 by (field; exact Hb).
  now apply Rpower_1.
Qed.

Lemma bounded_argument_pos (alpha xmin v u : R) :
  1 < alpha -> 0 < xmin -> xmin < v -> 0 <= u < 1 ->
  Rpower v (1 - alpha)
  < Rpower xmin (1 - alpha)
    + (Rpower v (1 - alpha) - Rpower xmin (1 - alpha)) * u
  <= Rpower xmin (1 - alpha).
Proof.
  intros Ha Hm Hv [Hu0 Hu1].
  pose proof (Rpower_gap alpha xmin v Ha Hm Hv) as Hgap.
  split; nra.
Qed.

(** X1: [sample] is the inverse transform of [cdf]: the distribution function
    of the variates gives the uniform draws back. *)
Theorem cdf_inverts_sample
    (rand : nat -> list R) (alpha : R) (size : nat) (xmin : R) (xmax : option R) :
  valid_parameters alpha xmin xmax ->
  Forall (fun u => 0 <= u < 1) (rand size) ->
  exists s,
    sample rand alpha size xmin xmax = Ok s
    /\ cdf s alpha xmin xmax = Ok (rand size).
Proof.
  intros (Ha & Hm & Hv) Hr.
  destruct xmax as [v |].
  - rewrite sample_bounded by assumption.
    eexists. split; [reflexivity |].
    rewrite cdf_bounded; try assumption.
    + rewrite map_map. f_equal. rewrite <- (map_id (rand size)) at 2.
      apply map_ext_in. intros u Hu.
      rewrite Forall_forall in Hr. specialize (Hr u Hu).
      pose proof (bounded_argument_pos alpha xmin v u Ha Hm Hv Hr) as [Hlo _].
      pose proof (Rpower_pos v (1 - alpha)) as Hpv.
      pose proof (Rpower_gap alpha xmin v Ha Hm Hv) as Hgap.
      rewrite Rpower_unroot by lra. field. lra.
    + apply Forall_map_iff. apply Forall_forall. intros u _. apply Rpower_pos.
  - rewrite sample_unbounded by assumption.
    eexists. split; [reflexivity |].
    rewrite cdf_unbounded; try assumption.
    + rewrite map_map. f_equal. rewrite <- (map_id (rand size)) at 2.
      apply map_ext_in. intros u Hu.
      rewrite Forall_forall in Hr. specialize (Hr u Hu).
      replace (xmin * Rpower (1 - u) (1 / (1 - alpha)) / xmin)
        with (Rpower (1 - u) (1 / (1 - alpha))) by (field; lra).
      rewrite Rpower_unroot by lra. ring.
    + apply Forall_map_iff. apply Forall_forall. intros u _.
      apply Rmult_lt_0_compat; [exact Hm | apply Rpower_pos].
Qed.

Lemma cdf_inverts_sample_witness :
  exists s,
    sample (fun n => repeat (1 / 4) n) (5 / 2) 3 10 None = Ok s
    /\ cdf s (5 / 2) 10 None = Ok (repeat (1 / 4) 3).
Proof.
  apply (cdf_inverts_sample (fun n => repeat (1 / 4) n) (5 / 2) 3 10 None).
  - unfold valid_parameters. repeat split; lra.
  - simpl. repeat constructor; lra.
Defined.

(** X3: On the support the distribution function stays between 0 and 1,
    with and without an upper bound. *)
Theorem cdf_range (x : list R) (alpha xmin : R) (xmax : option R) :
  valid_parameters alpha xmin xmax ->
  Forall (in_support xmin xmax) x ->
  exists c,
    cdf x alpha xmin xmax = Ok c
    /\ Forall (fun ci => 0 <= ci <= 1) c.
Proof.
  intros (Ha & Hm & Hv) Hs.
  assert (Hx : Forall (fun xi => 0 < xi) x).
  { revert Hs. apply Forall_impl. intros xi [Hxi _]. lra. }
  destruct xmax as [v |].
  - rewrite cdf_bounded by assumption.
    eexists. split; [reflexivity |].
    apply Forall_map_iff. revert Hs. apply Forall_impl. intros xi [Hlo Hhi].
    pose proof (Rpower_gap alpha xmin v Ha Hm Hv) as Hgap.
    assert (H1 : Rpower xi (1 - alpha) <= Rpower xmin (1 - alpha)).
    { apply Rpower_decr_le; lra. }
    assert (H2 : Rpower v (1 - alpha) <= Rpower xi (1 - alpha)).
    { apply Rpower_decr_le; lra. }
    set (k := Rpower v (1 - alpha) - Rpower xmin (1 - alpha)) in *.
    assert (Hk : / k < 0) by (apply Rinv_lt_0_compat; exact Hgap).
    assert (Hkk : k * / k = 1) by (apply Rinv_r; lra).
    set (n := Rpower xi (1 - alpha) - Rpower xmin (1 - alpha)).
    assert (Hn1 : n <= 0) by (unfold n; lra).
    assert (Hn2 : k <= n) by (unfold n, k; lra).
    clearbody n k. unfold Rdiv. split; nra.
  - rewrite cdf_unbounded by assumption.
    eexists. split; [reflexivity |].
    apply Forall_map_iff. revert Hs. apply Forall_impl. intros xi [Hlo _].
    assert (Hle : Rpower (xi / xmin) (1 - alpha) <= 1).
    { rewrite <- (Rpower_base_one (1 - alpha)) at 2.
      apply Rpower_decr_le; [lra | | lra].
      apply Rmult_le_reg_r with xmin; [exact Hm |].
      replace (xi / xmin * xmin) with xi by (field; lra). lra. }
    pose proof (Rpower_pos (xi / xmin) (1 - alpha)). lra.
Qed.

Lemma cdf_range_witness :
  (exists c,
     cdf [10; 100; 100000] (5 / 2) 10 (Some 100000) = Ok c
     /\ Forall (fun ci => 0 <= ci <= 1) c)
  /\ (exists c,
        cdf [10; 100; 10000000000000] (5 / 2) 10 None = Ok c
        /\ Forall (fun ci => 0 <= ci <= 1) c).
Proof.
  split.
  - apply (cdf_range [10; 100; 100000] (5 / 2) 10 (Some 100000)).
    + unfold valid_parameters. repeat split; lra.
    + unfold in_support. repeat constructor; lra.
  - apply (cdf_range [10; 100; 10000000000000] (5 / 2) 10 None).
    + unfold valid_parameters. repeat split; lra.
    + unfold in_support. repeat constructor; lra.
Defined.

(** ** Density *)

(** X4: The density falls along the support: of two support points in order,
    the later one has the smaller density. *)
Theorem pdf_decreasing (alpha xmin : R) (xmax : option R) (x1 x2 : R) :
  valid_parameters alpha xmin xmax ->
  in_support xmin xmax x1 -> in_support xmin xmax x2 -> x1 <= x2 ->
  exists p1 p2,
    pdf [x1; x2] alpha xmin xmax = Ok [p1; p2] /\ p2 <= p1.
Proof.
  intros (Ha & Hm & Hv) [H1 _] [H2 _] H12.
  assert (Hx : Forall (fun xi => 0 < xi) [x1; x2]) by (repeat constructor; lra).
  assert (Hd : Rpower x2 (- alpha) <= Rpower x1 (- alpha)).
  { apply Rpower_decr_le; lra. }
  destruct xmax as [v |].
  - rewrite pdf_bounded by assumption. simpl.
    do 2 eexists. split; [reflexivity |].
    pose proof (Rpower_gap alpha xmin v Ha Hm Hv) as Hgap.
    set (k := Rpower v (1 - alpha) - Rpower xmin (1 - alpha)) in *.
    assert (Hk : / k < 0) by (apply Rinv_lt_0_compat; exact Hgap).
    apply Rmult_le_compat_l; [| exact Hd]. unfold Rdiv. clearbody k. nra.
  - rewrite pdf_unbounded by assumption. simpl.
    do 2 eexists. split; [reflexivity |].
    pose proof (Rpower_pos xmin (1 - alpha)) as Hq.
    assert (Hk : 0 < / Rpower xmin (1 - alpha)) by now apply Rinv_0_lt_compat.
    apply Rmult_le_compat_l; [| exact Hd]. unfold Rdiv. nra.
Qed.

Lemma pdf_decreasing_witness :
  exists p1 p2,
    pdf [10; 100] (5 / 2) 10 None = Ok [p1; p2] /\ p2 <= p1.
Proof.
  apply (pdf_decreasing (5 / 2) 10 None 10 100).
  - unfold valid_parameters. repeat split; lra.
  - unfold in_support. split; [lra | exact I].
  - unfold in_support. split; [lra | exact I].
  - lra.
Defined.

(** X5: The density is a power law: multiplying the point by [c] multiplies
    the density by [c ** -alpha], with and without an upper bound. *)
Theorem pdf_scaling (alpha xmin : R) (xmax : option R) (x c : R) :
  valid_parameters alpha xmin xmax -> 0 < x -> 0 < c ->
  exists p,
    pdf [x] alpha xmin xmax = Ok [p]
    /\ pdf [c * x] alpha xmin xmax = Ok [Rpower c (- alpha) * p].
Proof.
  intros (Ha & Hm & Hv) Hx Hc.
  assert (Hcx : 0 < c * x) by now apply Rmult_lt_0_compat.
  assert (H1 : Forall (fun xi => 0 < xi) [x]) by (repeat constructor; lra).
  assert (H2 : Forall (fun xi => 0 < xi) [c * x]) by (repeat constructor; lra).
  pose proof (Rpower_mult_distr c x (- alpha) Hc Hx) as Hmul.
  destruct xmax as [v |].
  - rewrite !pdf_bounded by assumption. simpl.
    eexists. split; [reflexivity |]. rewrite <- Hmul. do 2 f_equal. ring.
  - rewrite !pdf_unbounded by assumption. simpl.
    eexists. split; [reflexivity |]. rewrite <- Hmul. do 2 f_equal. ring.
Qed.

Lemma pdf_scaling_witness :
  exists p,
    pdf [20] (5 / 2) 10 None = Ok [p]
    /\ pdf [3 * 20] (5 / 2) 10 None = Ok [Rpower 3 (- (5 / 2)) * p].
Proof.
  apply (pdf_scaling (5 / 2) 10 None 20 3); try lra.
  unfold valid_parameters. repeat split; lra.
Defined.

Lemma Rpower_pred (x b : R) : 0 < x -> Rpower x (b - 1) = Rpower x b / x.
Proof.
  intros Hx. unfold Rminus. rewrite Rpower_plus, Rpower_Ropp, Rpower_1 by exact Hx.
  reflexivity.
Qed.

Lemma Rpower_quotient (x y b : R) :
  0 < x -> 0 < y -> Rpower (x / y) b = Rpower x b / Rpower y b.
Proof.
  intros Hx Hy. unfold Rdiv.
  rewrite <- Rpower_mult_distr by (try assumption; now apply Rinv_0_lt_compat).
  f_equal. unfold Rpower. rewrite ln_Rinv by exact Hy.
  replace (b * - ln y) with (- (b * ln y)) by ring.
  apply exp_Ropp.
Qed.

Lemma cdf_unbounded_derivative (alpha xmin x : R) :
  1 < alpha -> 0 < xmin -> 0 < x ->
  derivable_pt_lim (fun y => 1 - Rpower (y / xmin) (1 - alpha)) x
    (- (1 - alpha) / Rpower xmin (1 - alpha) * Rpower x (- alpha)).
Proof.
  intros Ha Hm Hx.
  assert (Hq : 0 < x / xmin) by now apply Rdiv_lt_0_compat.
  pose proof (Rpower_pos xmin (1 - alpha)) as Hp.
  assert (Hinner : derivable_pt_lim (fun y => y / xmin) x (/ xmin)).
  { replace (/ xmin) with (1 * / xmin + x * 0) by ring.
    apply (derivable_pt_lim_mult id (fct_cte (/ xmin))).
    - apply derivable_pt_lim_id.
    - apply derivable_pt_lim_const. }
  assert (Houter : derivable_pt_lim (fun z => 1 - Rpower z (1 - alpha)) (x / xmin)
                     (0 - (1 - alpha) * Rpower (x / xmin) (1 - alpha - 1))).
  { apply (derivable_pt_lim_minus (fct_cte 1) (fun z => Rpower z (1 - alpha))).
    - apply derivable_pt_lim_const.
    - now apply derivable_pt_lim_power. }
  pose proof (derivable_pt_lim_comp _ _ _ _ _ Hinner Houter) as H.
  unfold comp in H.
  replace (- (1 - alpha) / Rpower xmin (1 - alpha) * Rpower x (- alpha))
    with ((0 - (1 - alpha) * Rpower (x / xmin) (1 - alpha - 1)) * / xmin);
    [exact H |].
  rewrite Rpower_pred by exact Hq. rewrite Rpower_quotient by assumption.
  replace (- alpha) with (1 - alpha - 1) by ring.
  rewrite (Rpower_pred x) by exact Hx. field. repeat split; lra.
Qed.

Lemma cdf_bounded_derivative (alpha xmin v x : R) :
  1 < alpha -> 0 < xmin -> xmin < v -> 0 < x ->
  derivable_pt_lim
    (fun y => (Rpower y (1 - alpha) - Rpower xmin (1 - alpha))
              / (Rpower v (1 - alpha) - Rpower xmin (1 - alpha))) x
    ((1 - alpha) / (Rpower v (1 - alpha) - Rpower xmin (1 - alpha))
     * Rpower x (- alpha)).
Proof.
  intros Ha Hm Hv Hx.
  pose proof (Rpower_gap alpha xmin v Ha Hm Hv) as Hgap.
  set (k := Rpower v (1 - alpha) - Rpower xmin (1 - alpha)) in *.
  set (a := Rpower xmin (1 - alpha)).
  assert (Hnum : derivable_pt_lim (fun y => Rpower y (1 - alpha) - a) x
                   ((1 - alpha) * Rpower x (1 - alpha - 1) - 0)).
  { apply (derivable_pt_lim_minus (fun y => Rpower y (1 - alpha)) (fct_cte a)).
    - now apply derivable_pt_lim_power.
    - apply derivable_pt_lim_const. }
  replace ((1 - alpha) / k * Rpower x (- alpha))
    with (((1 - alpha) * Rpower x (1 - alpha - 1) - 0) * / k
          + (Rpower x (1 - alpha) - a) * 0).
  - apply (derivable_pt_lim_mult (fun y => Rpower y (1 - alpha) - a) (fct_cte (/ k))).
    + exact Hnum.
    + apply derivable_pt_lim_const.
  - replace (1 - alpha - 1) with (- alpha) by ring. field. lra.
Qed.

(** X6: The density is the derivative of the distribution function: at every
    positive point, the value [pdf] returns is the derivative of the
    function [cdf] computes. *)
Theorem pdf_is_derivative_of_cdf (alpha xmin : R) (xmax : option R) (x : R) :
  valid_parameters alpha xmin xmax -> 0 < x ->
  exists (F : R -> R) (p : R),
    (forall y, 0 < y -> cdf [y] alpha xmin xmax = Ok [F y])
    /\ pdf [x] alpha xmin xmax = Ok [p]
    /\ derivable_pt_lim F x p.
Proof.
  intros (Ha & Hm & Hv) Hx.
  assert (H1 : Forall (fun xi => 0 < xi) [x]) by (repeat constructor; lra).
  destruct xmax as [v |].
  - exists (fun y => (Rpower y (1 - alpha) - Rpower xmin (1 - alpha))
                     / (Rpower v (1 - alpha) - Rpower xmin (1 - alpha))).
    eexists. split; [| split].
    + intros y Hy. rewrite cdf_bounded; try assumption; [reflexivity |].
      repeat constructor; lra.
    + rewrite pdf_bounded by assumption. reflexivity.
    + now apply cdf_bounded_derivative.
  - exists (fun y => 1 - Rpower (y / xmin) (1 - alpha)).
    eexists. split; [| split].
    + intros y Hy. rewrite cdf_unbounded; try assumption; [reflexivity |].
      repeat constructor; lra.
    + rewrite pdf_unbounded by assumption. reflexivity.
    + now apply cdf_unbounded_derivative.
Qed.

Lemma pdf_is_derivative_of_cdf_witness :
  exists (F : R -> R) (p : R),
    (forall y, 0 < y -> cdf [y] (5 / 2) 10 (Some 100000) = Ok [F y])
    /\ pdf [50] (5 / 2) 10 (Some 100000) = Ok [p]
    /\ derivable_pt_lim F 50 p.
Proof.
  apply (pdf_is_derivative_of_cdf (5 / 2) 10 (Some 100000) 50); [| lra].
  unfold valid_parameters. repeat split; lra.
Defined.

(** ** Edge behaviour of the parameters *)

(** X7: An upper bound of zero is taken as no upper bound: [not xmax] holds
    for [0] as for [None], in all three functions and for all arguments. *)
Theorem zero_xmax_is_unbounded
    (rand : nat -> list R) (x : list R) (alpha : R) (size : nat) (xmin : R) :
  sample rand alpha size xmin (Some 0) = sample rand alpha size xmin None
  /\ pdf x alpha xmin (Some 0) = pdf x alpha xmin None
  /\ cdf x alpha xmin (Some 0) = cdf x alpha xmin None.
Proof.
  assert (H : not_xmax (Some 0) = true) by (apply Reqb'_true; reflexivity).
  unfold sample, pdf, cdf. rewrite H. simpl not_xmax. repeat split.
Qed.

Lemma float_pow_zero_base (y : R) : y < 0 -> float_pow 0 y = inl ZeroToNegative.
Proof.
  intros Hy. unfold float_pow.
  rewrite Reqb'_false by lra. rewrite Rltb'_false by lra.
  rewrite Reqb'_true by reflexivity. now rewrite Rltb'_true.
Qed.

Lemma py_pow_zero_base (y : R) : y < 0 -> py_pow 0 y = Raise ZeroDivisionError.
Proof. intros Hy. unfold py_pow. now rewrite float_pow_zero_base. Qed.

(** X8: A lower bound of zero passes the assertion and fails in the
    arithmetic: [pdf] raises [ZeroDivisionError] from [xmin ** beta], and so
    do [cdf] and [sample] when a positive upper bound is given. *)
Theorem zero_xmin_divides_by_zero
    (rand : nat -> list R) (x : list R) (alpha : R) (size : nat) (v : R) :
  1 < alpha -> 0 < v ->
  pdf x alpha 0 None = Raise ZeroDivisionError
  /\ pdf x alpha 0 (Some v) = Raise ZeroDivisionError
  /\ cdf x alpha 0 (Some v) = Raise ZeroDivisionError
  /\ sample rand alpha size 0 (Some v) = Raise ZeroDivisionError.
Proof.
  intros Ha Hv.
  assert (Hn : not_xmax (Some v) = false) by (apply Reqb'_false; lra).
  unfold pdf, cdf, sample. rewrite Rgtb_true by exact Ha. rewrite Hn.
  rewrite !py_pow_zero_base by lra. rewrite !py_pow_pos by exact Hv.
  repeat split.
Qed.

Lemma zero_xmin_divides_by_zero_witness :
  pdf [1; 2] (5 / 2) 0 None = Raise ZeroDivisionError
  /\ pdf [1; 2] (5 / 2) 0 (Some 100) = Raise ZeroDivisionError
  /\ cdf [1; 2] (5 / 2) 0 (Some 100) = Raise ZeroDivisionError
  /\ sample (fun n => repeat (1 / 2) n) (5 / 2) 2 0 (Some 100)
     = Raise ZeroDivisionError.
Proof.
  apply (zero_xmin_divides_by_zero (fun n => repeat (1 / 2) n) [1; 2] (5 / 2) 2 100); lra.
Defined.

(** ** Shapes *)

Lemma bind_Ok {A B : Type} (m : outcome A) (f : A -> outcome B) (b : B) :
  bind m f = Ok b -> exists a, m = Ok a /\ f a = Ok b.
Proof.
  destruct m as [a | e |]; simpl; intros H; try discriminate H.
  exists a. now split.
Qed.

Lemma mapM_length {A B : Type} (f : A -> outcome B) (l : list A) (l' : list B) :
  mapM f l = Ok l' -> length l' = length l.
Proof.
  revert l'. induction l as [| a l IH]; intros l' H; simpl in H.
  - injection H as <-. reflexivity.
  - apply bind_Ok in H as (b & _ & H).
    apply bind_Ok in H as (bs & Hbs & H).
    injection H as <-. simpl. f_equal. now apply IH.
Qed.

Ltac bind_inv H :=
  repeat match type of H with
  | bind _ _ = Ok _ =>
      let a := fresh "a" in
      let Ha := fresh "Ha" in
      apply bind_Ok in H as (a & Ha & H)
  end.

(** X9: Whatever the parameters, a result of [pdf] or [cdf] has one value for
    each point of [x], and a result of [sample] one variate for each
    uniform draw. *)
Theorem results_keep_the_shape
    (rand : nat -> list R) (x : list R) (alpha : R) (size : nat)
    (xmin : R) (xmax : option R) :
  (forall s, sample rand alpha size xmin xmax = Ok s -> length s = length (rand size))
  /\ (forall p, pdf x alpha xmin xmax = Ok p -> length p = length x)
  /\ (forall c, cdf x alpha xmin xmax = Ok c -> length c = length x).
Proof.
  split; [| split].
  - intros s H. unfold sample in H. bind_inv H.
    destruct (not_xmax xmax); bind_inv H.
    + injection H as <-. rewrite length_map. eapply mapM_length; eassumption.
    + eapply mapM_length; eassumption.
  - intros p H. unfold pdf in H. bind_inv H.
    destruct (not_xmax xmax); bind_inv H;
      injection H as <-; rewrite length_map; eapply mapM_length; eassumption.
  - intros c H. unfold cdf in H. bind_inv H.
    destruct (not_xmax xmax); bind_inv H.
    + injection H as <-. rewrite length_map.
      match goal with
      | H1 : mapM _ x = Ok ?q, H2 : mapM _ ?q = Ok _ |- _ =>
          rewrite (mapM_length _ _ _ H2); exact (mapM_length _ _ _ H1)
      end.
    + match goal with
      | H1 : mapM _ x = Ok ?q |- _ =>
          rewrite (mapM_length _ _ _ H); exact (mapM_length _ _ _ H1)
      end.
Qed.

(** ** Shape of the result of [histogram] *)

Lemma logbins_Ok_length (arr edges : list R) :
  _logbins arr = Ok edges -> (1 <= length edges)%nat.
Proof.
  intros H.
  assert (Hnz : nonzero arr <> []).
  { intros E. rewrite logbins_all_zero in H by exact E. discriminate H. }
  rewrite logbins_nonzero in H by exact Hnz.
  rewrite logspace_sturges in H by (apply length_pos; now apply nonzero_nonempty).
  destruct (np_log10 (min_nonzero arr)); [| discriminate H].
  destruct (np_log10 (max_element arr)); [| discriminate H].
  injection H as <-. rewrite length_log_edges. lia.
Qed.

Lemma histogram_Ok (arr : list R) (bins : option (list R)) (kw : kwargs)
    (h : hist) (edges : list R) :
  histogram arr bins kw = Ok (h, edges) ->
  np_histogram arr edges (normalize kw) = Ok h /\ (1 <= length edges)%nat.
Proof.
  intros H. unfold histogram in H. bind_inv H. injection H as <- <-.
  split; [assumption |].
  destruct bins as [[| e0 [| e1 rest]] |]; simpl in *.
  - injection Ha as <-. now apply logbins_Ok_length with arr.
  - injection Ha as <-. destruct (Reqb' e0 0).
    + now apply logbins_Ok_length with arr.
    + injection Ha0 as <-. simpl. lia.
  - discriminate Ha.
  - injection Ha as <-. now apply logbins_Ok_length with arr.
Qed.

Lemma count_if_le (p : R -> bool) (a : list R) : (count_if p a <= length a)%nat.
Proof. unfold count_if. apply filter_length_le. Qed.

Lemma bin_counts_sum_le (a edges : list R) :
  increasing edges = true -> (np_sum (bin_counts a edges) <= length a)%nat.
Proof.
  intros H. destruct edges as [| e0 [| e1 rest]]; [simpl; lia | simpl; lia |].
  rewrite bin_counts_sum by exact H. apply count_if_le.
Qed.

(** X12: Whatever [histogram] returns, there is one value for each pair of
    neighbouring edges, and raw counts never add up to more than the size
    of the sample. *)
Theorem histogram_result_shape
    (arr : list R) (bins : option (list R)) (kw : kwargs) (h : hist) (edges : list R) :
  histogram arr bins kw = Ok (h, edges) ->
  length edges = S (hist_length h)
  /\ match h with
     | Counts n => (np_sum n <= length arr)%nat
     | Densities _ => True
     end.
Proof.
  intros H. apply histogram_Ok in H as [H Hlen].
  unfold np_histogram in H.
  destruct (increasing edges) eqn:Hinc; [| discriminate H]. simpl in H.
  destruct (normalize kw).
  - bind_inv H. injection H as <-. simpl. split; [| exact I].
    apply mapM_length in Ha. rewrite Ha, length_combine.
    rewrite length_bin_counts, length_np_diff. lia.
  - injection H as <-. simpl. split.
    + rewrite length_bin_counts. lia.
    + now apply bin_counts_sum_le.
Qed.

Lemma histogram_result_shape_witness :
  let arr := [1; 2; 4] in
  let h := Counts (bin_counts arr (default_edges arr)) in
  length (default_edges arr) = S (hist_length h)
  /\ match h with
     | Counts n => (np_sum n <= length arr)%nat
     | Densities _ => True
     end.
Proof.
  apply (histogram_result_shape [1; 2; 4] None []
           (Counts (bin_counts [1; 2; 4] (default_edges [1; 2; 4])))
           (default_edges [1; 2; 4])).
  apply histogram_default_counts.
  - repeat constructor; lra.
  - apply Exists_pos_nonzero. apply Exists_cons_hd. lra.
  - reflexivity.
Defined.

(** ** Order of the sample *)

Lemma count_if_perm (p : R -> bool) (a a' : list R) :
  Permutation a a' -> count_if p a = count_if p a'.
Proof.
  induction 1 as [| x l l' _ IH | x y l | l l' l'' _ IH1 _ IH2].
  - reflexivity.
  - rewrite !count_if_cons. now rewrite IH.
  - rewrite !count_if_cons. lia.
  - now rewrite IH1.
Qed.

Lemma bin_counts_perm (a a' edges : list R) :
  Permutation a a' -> bin_counts a edges = bin_counts a' edges.
Proof.
  intros H. induction edges as [| e0 [| e1 [| e2 rest]] IH]; try reflexivity.
  - simpl. now rewrite (count_if_perm _ a a' H).
  - change (count_if (in_bin e0 e1) a :: bin_counts a (e1 :: e2 :: rest)
            = count_if (in_bin e0 e1) a' :: bin_counts a' (e1 :: e2 :: rest)).
    now rewrite IH, (count_if_perm _ a a' H).
Qed.

Lemma nonzero_perm (a a' : list R) :
  Permutation a a' -> Permutation (nonzero a) (nonzero a').
Proof.
  unfold nonzero.
  induction 1 as [| x l l' _ IH | x y l | l l' l'' _ IH1 _ IH2]; simpl.
  - constructor.
  - destruct (negb (Reqb' x 0)); [now constructor | exact IH].
  - destruct (negb (Reqb' x 0)), (negb (Reqb' y 0));
      try apply Permutation_refl. apply perm_swap.
  - now apply Permutation_trans with (filter (fun x => negb (Reqb' x 0)) l').
Qed.

Lemma np_min_perm (l l' : list R) : Permutation l l' -> np_min l = np_min l'.
Proof.
  intros H.
  destruct l as [| x t].
  - apply Permutation_nil in H. now subst.
  - destruct l' as [| x' t'].
    + apply Permutation_sym, Permutation_nil in H. discriminate H.
    + simpl. f_equal.
      destruct (fold_Rmin_spec t x) as [Hin Hle].
      destruct (fold_Rmin_spec t' x') as [Hin' Hle'].
      apply Rle_antisym.
      * apply Hle. apply (Permutation_in _ (Permutation_sym H)). exact Hin'.
      * apply Hle'. apply (Permutation_in _ H). exact Hin.
Qed.

Lemma np_max_perm (l l' : list R) : Permutation l l' -> np_max l = np_max l'.
Proof.
  intros H.
  destruct l as [| x t].
  - apply Permutation_nil in H. now subst.
  - destruct l' as [| x' t'].
    + apply Permutation_sym, Permutation_nil in H. discriminate H.
    + simpl. f_equal.
      destruct (fold_Rmax_spec t x) as [Hin Hle].
      destruct (fold_Rmax_spec t' x') as [Hin' Hle'].
      apply Rle_antisym.
      * apply Hle'. apply (Permutation_in _ H). exact Hin.
      * apply Hle. apply (Permutation_in _ (Permutation_sym H)). exact Hin'.
Qed.

Lemma logbins_perm (a a' : list R) : Permutation a a' -> _logbins a = _logbins a'.
Proof.
  intros H. unfold _logbins.
  rewrite (Permutation_length H).
  rewrite (np_min_perm _ _ (nonzero_perm a a' H)).
  now rewrite (np_max_perm a a' H).
Qed.

(** X14: The result of [histogram] does not depend on the order of the sample:
    a rearranged sample gives the same edges and the same values, or fails
    in the same way. *)
Theorem histogram_order_independent
    (arr arr' : list R) (bins : option (list R)) (kw : kwargs) :
  Permutation arr arr' ->
  histogram arr bins kw = histogram arr' bins kw.
Proof.
  intros H. unfold histogram, np_histogram.
  rewrite (logbins_perm arr arr' H).
  destruct (not_bins bins) as [nb | e |]; try reflexivity. simpl.
  destruct (if nb then _logbins arr' else Ok match bins with Some b => b | None => [] end)
    as [edges | e |]; try reflexivity. simpl.
  now rewrite (bin_counts_perm arr arr' edges H).
Qed.

Lemma histogram_order_independent_witness :
  histogram [1; 2; 4] None [] = histogram [4; 1; 2] None [].
Proof.
  apply (histogram_order_independent [1; 2; 4] [4; 1; 2] None []).
  apply Permutation_sym. apply (Permutation_cons_append [1; 2] 4).
Defined.

(** ** A sample with one value *)





(** ** A sample handed to [histogram] *)

Lemma sample_variate
    (rand : nat -> list R) (alpha : R) (size : nat) (xmin : R) (xmax : option R) :
  valid_parameters alpha xmin xmax ->
  Forall (fun u => 0 <= u < 1) (rand size) ->
  sample rand alpha size xmin xmax = Ok (map (variate alpha xmin xmax) (rand size)).
Proof.
  intros (Ha & Hm & Hv) Hr. destruct xmax as [v |].
  - now apply sample_bounded.
  - now apply sample_unbounded.
Qed.

Lemma variate_lower (alpha xmin : R) (xmax : option R) (u : R) :
  valid_parameters alpha xmin xmax -> 0 <= u < 1 ->
  xmin <= variate alpha xmin xmax u.
Proof.
  intros (Ha & Hm & Hv) Hu.
  pose proof (inv_beta_neg alpha Ha) as He.
  destruct xmax as [v |]; simpl.
  - pose proof (bounded_argument_pos alpha xmin v u Ha Hm Hv Hu) as [Hlo Hhi].
    pose proof (Rpower_pos v (1 - alpha)) as Hpv.
    apply Rle_trans with (Rpower (Rpower xmin (1 - alpha)) (1 / (1 - alpha))).
    + right. symmetry. apply Rpower_root; lra.
    + apply Rpower_decr_le; [lra | exact Hhi | exact He].
  - assert (H1 : 1 <= Rpower (1 - u) (1 / (1 - alpha))).
    { rewrite <- (Rpower_base_one (1 / (1 - alpha))) at 1.
      apply Rpower_decr_le; lra. }
    nra.
Qed.

Lemma variates_positive (alpha xmin : R) (xmax : option R) (r : list R) :
  valid_parameters alpha xmin xmax ->
  Forall (fun u => 0 <= u < 1) r ->
  Forall (fun x => 0 < x) (map (variate alpha xmin xmax) r).
Proof.
  intros Hvalid Hr. apply Forall_map_iff. revert Hr. apply Forall_impl.
  intros u Hu. pose proof (variate_lower alpha xmin xmax u Hvalid Hu).
  destruct Hvalid as (_ & Hm & _). lra.
Qed.

Lemma Forall_pos_nonneg (l : list R) :
  Forall (fun x => 0 < x) l -> Forall (fun x => 0 <= x) l.
Proof. apply Forall_impl. intros x Hx. lra. Qed.

Lemma Forall_pos_Exists (l : list R) :
  l <> [] -> Forall (fun x => 0 < x) l -> Exists (fun x => 0 < x) l.
Proof.
  destruct l as [| x l]; [congruence |]. intros _ H.
  inversion H; subst. now apply Exists_cons_hd.
Qed.

(** X17: A sample of one or more variates goes through [histogram]: the
    default edges exist, there are [ceil(log2(size)) + 1] of them, nothing
    is raised, and the raw counts add up to no more than the number of
    variates. *)
Theorem sample_feeds_histogram
    (rand : nat -> list R) (alpha : R) (size : nat) (xmin : R) (xmax : option R)
    (kw : kwargs) :
  valid_parameters alpha xmin xmax ->
  Forall (fun u => 0 <= u < 1) (rand size) ->
  (1 <= length (rand size))%nat ->
  normalize kw = false ->
  exists s counts edges,
    sample rand alpha size xmin xmax = Ok s
    /\ histogram s None kw = Ok (Counts counts, edges)
    /\ length edges = (Nat.log2_up (length (rand size)) + 1)%nat
    /\ length edges = S (length counts)
    /\ (np_sum counts <= length (rand size))%nat.
Proof.
  intros Hvalid Hr Hlen Hkw.
  pose proof (variates_positive alpha xmin xmax _ Hvalid Hr) as Hpos.
  set (s := map (variate alpha xmin xmax) (rand size)) in *.
  assert (Hls : length s = length (rand size)) by apply length_map.
  assert (Hne : s <> []) by (destruct s; [simpl in Hls; lia | discriminate]).
  pose proof (Exists_pos_nonzero s (Forall_pos_Exists s Hne Hpos)) as Hnz.
  pose proof (Forall_pos_nonneg s Hpos) as Hnn.
  exists s, (bin_counts s (default_edges s)), (default_edges s).
  assert (Hedges : length (default_edges s) = (Nat.log2_up (length (rand size)) + 1)%nat).
  { unfold default_edges. now rewrite length_log_edges, Hls. }
  split; [now apply sample_variate |].
  split; [now apply histogram_default_counts |].
  split; [exact Hedges |].
  split; [rewrite length_bin_counts; lia |].
  rewrite <- Hls. apply bin_counts_sum_le.
  now apply default_edges_increasing.
Qed.

Lemma sample_feeds_histogram_witness :
  let draws := [0; 1 / 2; 3 / 4] in
  exists s counts edges,
    sample (fun _ => draws) (5 / 2) 3 10 None = Ok s
    /\ histogram s None [] = Ok (Counts counts, edges)
    /\ length edges = (Nat.log2_up (length draws) + 1)%nat
    /\ length edges = S (length counts)
    /\ (np_sum counts <= length draws)%nat.
Proof.
  apply (sample_feeds_histogram (fun _ => [0; 1 / 2; 3 / 4]) (5 / 2) 3 10 None []).
  - unfold valid_parameters. repeat split; lra.
  - repeat constructor; lra.
  - simpl. lia.
  - reflexivity.
Defined.
